(** * OpenImageIO [unittest.h]: failure counter and OIIO_CHECK_* macros

    A shallow embedding of [src/include/OpenImageIO/unittest.h].

    - [int] is a 32-bit two's complement integer, carried as a [Z] with
      the wrap-around written out ([wrap_int]).
    - [float] is IEEE-754 binary32, carried as a [spec_float] with the
      operations of [SpecFloat] at precision 24 and maximal exponent 128
      (round to nearest, ties to even).
    - [double] is binary64 and [unsigned] a 32-bit integer modulo
      [2^32]; they appear as operands of the [equal_approx] template,
      which converts every operand to [float].
    - [std::cout] is the string written so far; the static
      [unit_test_failures] object and [std::cout] make up the [world]
      every macro acts on.
    - The operators a macro applies to its operands ([==], [<], [-],
      [std::abs], [<<] ...) are C++ overloads chosen by the operand
      types; here they are single-method type classes. *)

From Stdlib Require Import ZArith String Ascii List Bool Lia.
From Stdlib Require Import DecimalString QArith Qabs.
From Stdlib Require Import Floats.SpecFloat.
Import ListNotations.

Local Open Scope string_scope.
Local Open Scope Z_scope.

(** ** The C++ [int] *)

Definition INT_MAX : Z := 2147483647.
Definition INT_MIN : Z := -2147483648.

(** Reduction of an integer to the range of [int]. *)
Definition wrap_int (z : Z) : Z := (z - INT_MIN) mod 2 ^ 32 + INT_MIN.

Definition in_int (z : Z) : Prop := INT_MIN <= z <= INT_MAX.

(** ** The C++ [float]

    IEEE-754 binary32: 24 bits of precision, infinities at exponent 128.
    Arithmetic rounds to nearest, ties to even. *)

Definition float : Type := spec_float.
Definition prec : Z := 24.
Definition emax : Z := 128.

Definition fsub : float -> float -> float := SFsub prec emax.
Definition fmul : float -> float -> float := SFmul prec emax.
Definition fdiv : float -> float -> float := SFdiv prec emax.

(** Conversion of an integer constant, and of a decimal literal written
    as the quotient [n / d] of two exactly representable integers. *)
Definition float_of_Z (z : Z) : float := binary_normalize prec emax z 0 false.
Definition float_lit (n d : Z) : float := fdiv (float_of_Z n) (float_of_Z d).

(** The literal [0.001f]: [0x83126F * 2^-33]. *)
Definition f0_001 : float := S754_finite false 8589935 (-33).

(** [std::max(a, b)] is [(a < b) ? b : a]. *)
Definition std_max (a b : float) : float := if SFltb a b then b else a.

(** ** The C++ [double] and [unsigned]

    [double] is IEEE-754 binary64 (53 bits of precision, infinities at
    exponent 1024); [unsigned] is a 32-bit integer modulo [2^32]. Each
    has a type of its own, so that the overloads chosen for it are its
    own. *)

Record double := mk_double { double_bits : spec_float }.
Record unsigned := mk_unsigned { unsigned_value : Z }.

(** [x - y] on [double], [int] and [unsigned]. *)
Definition dsub (x y : double) : double :=
  mk_double (SFsub 53 1024 (double_bits x) (double_bits y)).
Definition isub (x y : Z) : Z := wrap_int (x - y).
Definition usub (x y : unsigned) : unsigned :=
  mk_unsigned ((unsigned_value x - unsigned_value y) mod 2 ^ 32).

(** The implicit conversions to [float] of an argument passed to a
    function that takes a [float]: a [double] is rounded to the nearest
    [float] (to an infinity beyond the range), an integer likewise. *)
Definition float_of_double (d : double) : float :=
  match double_bits d with
  | S754_finite s m e => binary_round prec emax s m e
  | other => other
  end.
Definition float_of_unsigned (u : unsigned) : float :=
  float_of_Z (unsigned_value u).

Module simd.

(** [inline float abs(float x) { return std::abs(x); }] *)
Definition abs (x : float) : float := SFabs x.

(** [inline float max(float x, float y) { return std::max(x, y); }] *)
Definition max (x y : float) : float := std_max x y.

(** Modelled from the spec: [all] on a scalar truth value, declared in
    [simd.h], which is not part of the sources at hand. With a single
    element, "all elements true" is the value itself. *)
Definition all (b : bool) : bool := b.

(** Modelled from the spec: the SIMD vector classes of [simd.h], which
    is not part of the sources at hand. A vector is four lanes; [-],
    [abs], [==] and [<] work lane by lane ("elementwise"), [==] and [<]
    give a vector of truth values, and [all] holds when "all elements"
    are true. *)
Record vec4 (T : Type) := mk4 { lane0 : T; lane1 : T; lane2 : T; lane3 : T }.
Arguments mk4 {T}.
Arguments lane0 {T}.
Arguments lane1 {T}.
Arguments lane2 {T}.
Arguments lane3 {T}.

Definition vfloat4 : Type := vec4 float.
Definition vbool4 : Type := vec4 bool.

Definition map4 {S T} (f : S -> T) (v : vec4 S) : vec4 T :=
  mk4 (f (lane0 v)) (f (lane1 v)) (f (lane2 v)) (f (lane3 v)).

Definition zip4 {R S T} (f : R -> S -> T) (u : vec4 R) (v : vec4 S) : vec4 T :=
  mk4 (f (lane0 u) (lane0 v)) (f (lane1 u) (lane1 v))
      (f (lane2 u) (lane2 v)) (f (lane3 u) (lane3 v)).

(** Modelled from the spec: [operator-], [abs], [operator==],
    [operator<] and [all] of the vector classes, lane by lane. *)
Definition vsub (x y : vfloat4) : vfloat4 := zip4 fsub x y.
Definition vabs (x : vfloat4) : vfloat4 := map4 SFabs x.
Definition veq (x y : vfloat4) : vbool4 := zip4 SFeqb x y.
Definition vlt (x y : vfloat4) : vbool4 := zip4 SFltb x y.
Definition vall (b : vbool4) : bool :=
  lane0 b && lane1 b && lane2 b && lane3 b.

End simd.

(** ** Characters and strings written to a stream *)

Definition nl : string := String (ascii_of_nat 10) EmptyString.
Definition tab : string := String (ascii_of_nat 9) EmptyString.

(** [t] occurs in [s] as a contiguous piece. *)
Definition occurs_in (t s : string) : Prop :=
  exists before after, s = before ++ t ++ after.

(** Decimal rendering of an [int], as [operator<<(int)] prints it. *)
Definition decimal (z : Z) : string := NilZero.string_of_int (Z.to_int z).

(** ** Operators the macros rely on

    One class per overloaded operator; [B] is the result type of a
    comparison ([bool] for scalars, a vector of lanes for SIMD types). *)

Class Streamable (T : Type) := put : T -> string.
Class Truthy (T : Type) := truthy : T -> bool.
Class OpEq (X Y B : Type) := op_eq : X -> Y -> B.
Class OpNe (X Y B : Type) := op_ne : X -> Y -> B.
Class OpLt (X Y B : Type) := op_lt : X -> Y -> B.
Class OpGt (X Y B : Type) := op_gt : X -> Y -> B.
Class OpLe (X Y B : Type) := op_le : X -> Y -> B.
Class OpGe (X Y B : Type) := op_ge : X -> Y -> B.
Class OpSub (X Y D : Type) := op_sub : X -> Y -> D.
(** [std::abs] *)
Class StdAbs (D : Type) := std_abs : D -> D.
(** unqualified [abs], found in namespace [simd] *)
Class Abs (D : Type) := abs : D -> D.
(** [all(...)]: every lane true *)
Class All (B : Type) := all : B -> bool.
(** [OIIO::pvt::equal_approx<X,Y>] *)
Class EqualApprox (X Y : Type) := equal_approx : X -> Y -> bool.

(** implicit conversion of an argument to [float] *)
Class ToFloat (T : Type) := to_float : T -> float.

(** ** [Sysutil::Term]

    [sysutil.h] is not part of the sources at hand; the two [ansi]
    overloads of [Sysutil::Term(std::cout)] are taken as given. *)
Class Terminal := {
  ansi : string -> string;
  ansi_text : string -> string -> string
}.

(** A terminal without colour support: no escape sequences at all. *)
Definition plain_terminal : Terminal :=
  {| ansi := fun _ => ""; ansi_text := fun _ text => text |}.

(** ** [OIIO::pvt::UnitTestFailureCounter] *)

Module pvt.

Record UnitTestFailureCounter := { m_failures : Z }.

(** [UnitTestFailureCounter() noexcept : m_failures(0)] *)
Definition ctor : UnitTestFailureCounter := {| m_failures := 0 |}.

(** [operator++()], prefix: [++m_failures; return *this;] *)
Definition operator_preinc (c : UnitTestFailureCounter) : UnitTestFailureCounter :=
  {| m_failures := wrap_int (m_failures c + 1) |}.

(** [operator++(int)], postfix: [return m_failures++;]
    The result is the returned (old) value and the updated object. *)
Definition operator_postinc (c : UnitTestFailureCounter)
  : Z * UnitTestFailureCounter :=
  (m_failures c, {| m_failures := wrap_int (m_failures c + 1) |}).

(** [operator+=(int i)]: [m_failures += i; return *this;]
    The return type is an object, not a reference: the result is the
    returned copy and the updated object. *)
Definition operator_add_assign (c : UnitTestFailureCounter) (i : Z)
  : UnitTestFailureCounter * UnitTestFailureCounter :=
  let c' := {| m_failures := wrap_int (m_failures c + i) |} in (c', c').

(** [operator int() const] *)
Definition operator_int (c : UnitTestFailureCounter) : Z := m_failures c.

(** [~UnitTestFailureCounter()]: the text written to [std::cout] and
    the argument of [std::exit] when it is called. [m_failures != 0]
    converts to the [int] 1 inside the branch that is taken only when
    [m_failures] is nonzero. *)
Definition dtor {term : Terminal} (c : UnitTestFailureCounter) : string * option Z :=
  if negb (m_failures c =? 0)
  then (ansi_text "red" ("ERRORS!" ++ nl),
        Some (if negb (m_failures c =? 0) then 1 else 0))
  else (ansi_text "green" ("OK" ++ nl), None).

(** [equal_approx<X,Y>] at [X = Y = float]:
    [using namespace simd;
     return all(abs((x) - (y)) <= 0.001f * max(abs(x), abs(y)));] *)
Definition equal_approx (x y : float) : bool :=
  simd.all (SFleb (simd.abs (fsub x y))
                  (fmul f0_001 (simd.max (simd.abs x) (simd.abs y)))).


(** [equal_approx<X,Y>] at scalar operand types. [abs] and [max] are
    the [float] functions of namespace [simd], the only ones in scope:
    the difference, taken in the type of the operands, and each
    operand are converted to [float] on the way in. *)
Definition equal_approx_template {X Y D : Type}
    `{OpSub X Y D} `{ToFloat D} `{ToFloat X} `{ToFloat Y}
    (x : X) (y : Y) : bool :=
  simd.all (SFleb (simd.abs (to_float (op_sub x y)))
                  (fmul f0_001 (simd.max (simd.abs (to_float x))
                                         (simd.abs (to_float y))))).

End pvt.

(** ** The world of a test program *)

Record world := {
  cout : string;
  unit_test_failures : pvt.UnitTestFailureCounter
}.

(** Before [main]: nothing printed, the static counter constructed. *)
Definition initial_world : world :=
  {| cout := ""; unit_test_failures := pvt.ctor |}.

(** A statement either lets the program go on or ends the process with
    an exit status ([std::exit]). *)
Inductive outcome :=
| Running (w : world)
| Exited (status : Z) (w : world).

Definition stmt := world -> outcome.

Definition seq (s1 s2 : stmt) : stmt :=
  fun w => match s1 w with
           | Running w' => s2 w'
           | Exited st w' => Exited st w'
           end.

Definition skip : stmt := Running.

(** [std::cout << text] *)
Definition print (text : string) (w : world) : world :=
  {| cout := cout w ++ text; unit_test_failures := unit_test_failures w |}.

(** [(void)++unit_test_failures] *)
Definition count_failure (w : world) : world :=
  {| cout := cout w;
     unit_test_failures := pvt.operator_preinc (unit_test_failures w) |}.

(** The place of a macro call: [__FILE__] and [__LINE__]. *)
Record site := { file : string; line : Z }.

(** ** The OIIO_CHECK_* macros

    Each macro is the conditional expression of the header:
    [(cond) ? ((void)0) : ((std::cout << ...), (void)++unit_test_failures)].
    [xs], [ys] are the stringized operands [#x], [#y]; [x], [y], [eps]
    are the values the operand expressions evaluate to. *)

Section Macros.
Context {term : Terminal}.

(** The part every message starts with:
    [ansi("red,bold") << __FILE__ << ":" << __LINE__ << ":\n" << "FAILED: " << ansi("normal")] *)
Definition failed_at (loc : site) : string :=
  ansi "red,bold" ++ file loc ++ ":" ++ decimal (line loc) ++ ":" ++ nl
    ++ "FAILED: " ++ ansi "normal".

Definition OIIO_CHECK_ASSERT {X} `{Truthy X}
    (loc : site) (xs : string) (x : X) : stmt :=
  fun w =>
    if truthy x then Running w
    else Running (count_failure (print (failed_at loc ++ xs ++ nl) w)).

Definition OIIO_CHECK_EQUAL {X Y} `{OpEq X Y bool} `{Streamable X} `{Streamable Y}
    (loc : site) (xs ys : string) (x : X) (y : Y) : stmt :=
  fun w =>
    if (op_eq x y : bool) then Running w
    else Running (count_failure (print
           (failed_at loc ++ xs ++ " == " ++ ys ++ nl
              ++ tab ++ "values were '" ++ put x ++ "' and '" ++ put y
              ++ "'" ++ nl) w)).

Definition OIIO_CHECK_EQUAL_THRESH {X Y D E}
    `{OpSub X Y D} `{StdAbs D} `{OpLe D E bool}
    `{Streamable X} `{Streamable Y} `{Streamable D}
    (loc : site) (xs ys : string) (x : X) (y : Y) (eps : E) : stmt :=
  fun w =>
    if (op_le (std_abs (op_sub x y)) eps : bool) then Running w
    else Running (count_failure (print
           (failed_at loc ++ xs ++ " == " ++ ys ++ nl
              ++ tab ++ "values were '" ++ put x ++ "' and '" ++ put y ++ "'"
              ++ ", diff was " ++ put (std_abs (op_sub x y)) ++ nl) w)).

Definition OIIO_CHECK_EQUAL_APPROX {X Y D}
    `{EqualApprox X Y} `{OpSub X Y D}
    `{Streamable X} `{Streamable Y} `{Streamable D}
    (loc : site) (xs ys : string) (x : X) (y : Y) : stmt :=
  fun w =>
    if equal_approx x y then Running w
    else Running (count_failure (print
           (failed_at loc ++ xs ++ " == " ++ ys ++ nl
              ++ tab ++ "values were '" ++ put x ++ "' and '" ++ put y ++ "'"
              ++ ", diff was " ++ put (op_sub x y) ++ nl) w)).

Definition OIIO_CHECK_NE {X Y} `{OpNe X Y bool} `{Streamable X} `{Streamable Y}
    (loc : site) (xs ys : string) (x : X) (y : Y) : stmt :=
  fun w =>
    if (op_ne x y : bool) then Running w
    else Running (count_failure (print
           (failed_at loc ++ xs ++ " != " ++ ys ++ nl
              ++ tab ++ "values were '" ++ put x ++ "' and '" ++ put y
              ++ "'" ++ nl) w)).

Definition OIIO_CHECK_LT {X Y} `{OpLt X Y bool} `{Streamable X} `{Streamable Y}
    (loc : site) (xs ys : string) (x : X) (y : Y) : stmt :=
  fun w =>
    if (op_lt x y : bool) then Running w
    else Running (count_failure (print
           (failed_at loc ++ xs ++ " < " ++ ys ++ nl
              ++ tab ++ "values were '" ++ put x ++ "' and '" ++ put y
              ++ "'" ++ nl) w)).

Definition OIIO_CHECK_GT {X Y} `{OpGt X Y bool} `{Streamable X} `{Streamable Y}
    (loc : site) (xs ys : string) (x : X) (y : Y) : stmt :=
  fun w =>
    if (op_gt x y : bool) then Running w
    else Running (count_failure (print
           (failed_at loc ++ xs ++ " > " ++ ys ++ nl
              ++ tab ++ "values were '" ++ put x ++ "' and '" ++ put y
              ++ "'" ++ nl) w)).

Definition OIIO_CHECK_LE {X Y} `{OpLe X Y bool} `{Streamable X} `{Streamable Y}
    (loc : site) (xs ys : string) (x : X) (y : Y) : stmt :=
  fun w =>
    if (op_le x y : bool) then Running w
    else Running (count_failure (print
           (failed_at loc ++ xs ++ " <= " ++ ys ++ nl
              ++ tab ++ "values were '" ++ put x ++ "' and '" ++ put y
              ++ "'" ++ nl) w)).

Definition OIIO_CHECK_GE {X Y} `{OpGe X Y bool} `{Streamable X} `{Streamable Y}
    (loc : site) (xs ys : string) (x : X) (y : Y) : stmt :=
  fun w =>
    if (op_ge x y : bool) then Running w
    else Running (count_failure (print
           (failed_at loc ++ xs ++ " >= " ++ ys ++ nl
              ++ tab ++ "values were '" ++ put x ++ "' and '" ++ put y
              ++ "'" ++ nl) w)).

Definition OIIO_CHECK_SIMD_EQUAL {X Y B}
    `{OpEq X Y B} `{All B} `{Streamable X} `{Streamable Y}
    (loc : site) (xs ys : string) (x : X) (y : Y) : stmt :=
  fun w =>
    if all (op_eq x y) then Running w
    else Running (count_failure (print
           (failed_at loc ++ xs ++ " == " ++ ys ++ nl
              ++ tab ++ "values were '" ++ put x ++ "' and '" ++ put y
              ++ "'" ++ nl) w)).

Definition OIIO_CHECK_SIMD_EQUAL_THRESH {X Y D E B}
    `{OpSub X Y D} `{Abs D} `{OpLt D E B} `{All B}
    `{Streamable X} `{Streamable Y}
    (loc : site) (xs ys : string) (x : X) (y : Y) (eps : E) : stmt :=
  fun w =>
    if all (op_lt (abs (op_sub x y)) eps) then Running w
    else Running (count_failure (print
           (failed_at loc ++ xs ++ " == " ++ ys ++ nl
              ++ tab ++ "values were '" ++ put x ++ "' and '" ++ put y
              ++ "'" ++ nl) w)).

(** [OIIO_CHECK_EQUAL] on operand expressions that need not give the
    same value twice. The macro text names [(x)] and [(y)] once in the
    condition and once more in the message, so a failing check
    evaluates each a second time; [x k] and [y k] are the values of
    evaluation number [k], counted from 0. *)
Definition OIIO_CHECK_EQUAL_reevaluated {X Y}
    `{OpEq X Y bool} `{Streamable X} `{Streamable Y}
    (loc : site) (xs ys : string) (x : nat -> X) (y : nat -> Y) : stmt :=
  fun w =>
    if (op_eq (x 0%nat) (y 0%nat) : bool) then Running w
    else Running (count_failure (print
           (failed_at loc ++ xs ++ " == " ++ ys ++ nl
              ++ tab ++ "values were '" ++ put (x 1%nat) ++ "' and '"
              ++ put (y 1%nat) ++ "'" ++ nl) w)).

(** *** A macro call as data

    One constructor per macro, carrying the operand types, the
    overloads selected for them, the stringized operands and the
    operand values. *)
Inductive check_call : Type :=
| CHECK_ASSERT {X} (T : Truthy X) (xs : string) (x : X)
| CHECK_EQUAL {X Y} (E : OpEq X Y bool) (SX : Streamable X) (SY : Streamable Y)
    (xs ys : string) (x : X) (y : Y)
| CHECK_EQUAL_THRESH {X Y D E} (S : OpSub X Y D) (A : StdAbs D) (L : OpLe D E bool)
    (SX : Streamable X) (SY : Streamable Y) (SD : Streamable D)
    (xs ys : string) (x : X) (y : Y) (eps : E)
| CHECK_EQUAL_APPROX {X Y D} (Q : EqualApprox X Y) (S : OpSub X Y D)
    (SX : Streamable X) (SY : Streamable Y) (SD : Streamable D)
    (xs ys : string) (x : X) (y : Y)
| CHECK_NE {X Y} (E : OpNe X Y bool) (SX : Streamable X) (SY : Streamable Y)
    (xs ys : string) (x : X) (y : Y)
| CHECK_LT {X Y} (E : OpLt X Y bool) (SX : Streamable X) (SY : Streamable Y)
    (xs ys : string) (x : X) (y : Y)
| CHECK_GT {X Y} (E : OpGt X Y bool) (SX : Streamable X) (SY : Streamable Y)
    (xs ys : string) (x : X) (y : Y)
| CHECK_LE {X Y} (E : OpLe X Y bool) (SX : Streamable X) (SY : Streamable Y)
    (xs ys : string) (x : X) (y : Y)
| CHECK_GE {X Y} (E : OpGe X Y bool) (SX : Streamable X) (SY : Streamable Y)
    (xs ys : string) (x : X) (y : Y)
| CHECK_SIMD_EQUAL {X Y B} (E : OpEq X Y B) (A : All B)
    (SX : Streamable X) (SY : Streamable Y)
    (xs ys : string) (x : X) (y : Y)
| CHECK_SIMD_EQUAL_THRESH {X Y D E B} (S : OpSub X Y D) (A : Abs D)
    (L : OpLt D E B) (AL : All B) (SX : Streamable X) (SY : Streamable Y)
    (xs ys : string) (x : X) (y : Y) (eps : E).

(** Expansion of a macro call at a source location. *)
Definition expand (loc : site) (c : check_call) : stmt :=
  match c with
  | CHECK_ASSERT _ xs x => OIIO_CHECK_ASSERT loc xs x
  | CHECK_EQUAL _ _ _ xs ys x y => OIIO_CHECK_EQUAL loc xs ys x y
  | CHECK_EQUAL_THRESH _ _ _ _ _ _ xs ys x y eps =>
      OIIO_CHECK_EQUAL_THRESH loc xs ys x y eps
  | CHECK_EQUAL_APPROX _ _ _ _ _ xs ys x y =>
      OIIO_CHECK_EQUAL_APPROX loc xs ys x y
  | CHECK_NE _ _ _ xs ys x y => OIIO_CHECK_NE loc xs ys x y
  | CHECK_LT _ _ _ xs ys x y => OIIO_CHECK_LT loc xs ys x y
  | CHECK_GT _ _ _ xs ys x y => OIIO_CHECK_GT loc xs ys x y
  | CHECK_LE _ _ _ xs ys x y => OIIO_CHECK_LE loc xs ys x y
  | CHECK_GE _ _ _ xs ys x y => OIIO_CHECK_GE loc xs ys x y
  | CHECK_SIMD_EQUAL _ _ _ _ xs ys x y => OIIO_CHECK_SIMD_EQUAL loc xs ys x y
  | CHECK_SIMD_EQUAL_THRESH _ _ _ _ _ _ xs ys x y eps =>
      OIIO_CHECK_SIMD_EQUAL_THRESH loc xs ys x y eps
  end.

End Macros.

(** ** Printing a [std::vector] *)

Module Strutil.

(** Modelled from the spec: [Strutil::join] of [strutil.h], which is not
    part of the sources at hand. The elements are streamed one after
    the other, joined by the separator ("comma-joined"). *)
Definition join {T} `{Streamable T} (v : list T) (sep : string) : string :=
  String.concat sep (map put v).

End Strutil.

(** [operator<<(std::ostream& out, const std::vector<T>& v)]:
    [out << '{' << OIIO::Strutil::join(v, ",") << '}'; return out;]
    A stream is the text it holds. *)
Definition operator_shl_vector {T} `{Streamable T}
    (out : string) (v : list T) : string :=
  out ++ "{" ++ Strutil.join v "," ++ "}".

(** ** Overloads for the built-in types *)

#[export] Instance vector_streamable {T} `{Streamable T} : Streamable (list T) :=
  fun v => operator_shl_vector "" v.

(** [std::vector]'s [operator==]: same size and equal elements. *)
Fixpoint vector_eqb {T} `{OpEq T T bool} (u v : list T) : bool :=
  match u, v with
  | [], [] => true
  | a :: u', b :: v' => (op_eq a b : bool) && vector_eqb u' v'
  | _, _ => false
  end.

#[export] Instance vector_eq {T} `{OpEq T T bool} : OpEq (list T) (list T) bool :=
  vector_eqb.

#[export] Instance int_streamable : Streamable Z := decimal.
#[export] Instance int_truthy : Truthy Z := fun z => negb (z =? 0).
#[export] Instance int_eq : OpEq Z Z bool := Z.eqb.
#[export] Instance int_ne : OpNe Z Z bool := fun x y => negb (x =? y).
#[export] Instance int_lt : OpLt Z Z bool := Z.ltb.
#[export] Instance int_gt : OpGt Z Z bool := Z.gtb.
#[export] Instance int_le : OpLe Z Z bool := Z.leb.
#[export] Instance int_ge : OpGe Z Z bool := Z.geb.

(** [bool] prints as [1] or [0] (no [boolalpha]). *)
#[export] Instance bool_streamable : Streamable bool :=
  fun b => if b then "1" else "0".
#[export] Instance bool_truthy : Truthy bool := fun b => b.
#[export] Instance bool_all : All bool := simd.all.

(** IEEE comparisons: every ordered comparison with a NaN is false,
    [!=] is the negation of [==]. *)
#[export] Instance float_eq : OpEq float float bool := SFeqb.
#[export] Instance float_ne : OpNe float float bool := fun x y => negb (SFeqb x y).
#[export] Instance float_lt : OpLt float float bool := SFltb.
#[export] Instance float_gt : OpGt float float bool := fun x y => SFltb y x.
#[export] Instance float_le : OpLe float float bool := SFleb.
#[export] Instance float_ge : OpGe float float bool := fun x y => SFleb y x.
#[export] Instance float_sub : OpSub float float float := fsub.
#[export] Instance float_std_abs : StdAbs float := SFabs.
#[export] Instance float_abs : Abs float := simd.abs.
#[export] Instance float_equal_approx : EqualApprox float float := pvt.equal_approx.

#[export] Instance float_to_float : ToFloat float := fun x => x.
#[export] Instance double_to_float : ToFloat double := float_of_double.
#[export] Instance int_to_float : ToFloat Z := float_of_Z.
#[export] Instance unsigned_to_float : ToFloat unsigned := float_of_unsigned.
#[export] Instance double_sub : OpSub double double double := dsub.
#[export] Instance int_sub : OpSub Z Z Z := isub.
#[export] Instance unsigned_sub : OpSub unsigned unsigned unsigned := usub.
#[export] Instance double_equal_approx : EqualApprox double double :=
  pvt.equal_approx_template.
#[export] Instance int_equal_approx : EqualApprox Z Z :=
  pvt.equal_approx_template.
#[export] Instance unsigned_equal_approx : EqualApprox unsigned unsigned :=
  pvt.equal_approx_template.

#[export] Instance vfloat4_eq : OpEq simd.vfloat4 simd.vfloat4 simd.vbool4 := simd.veq.
#[export] Instance vfloat4_lt : OpLt simd.vfloat4 simd.vfloat4 simd.vbool4 := simd.vlt.
#[export] Instance vfloat4_sub : OpSub simd.vfloat4 simd.vfloat4 simd.vfloat4 := simd.vsub.
#[export] Instance vfloat4_abs : Abs simd.vfloat4 := simd.vabs.
#[export] Instance vbool4_all : All simd.vbool4 := simd.vall.

(** ** Test programs and the end of the process *)

Section Process.
Context {term : Terminal}.

(** A test body: macro calls, one after the other. *)
Fixpoint run_checks (cs : list (site * check_call)) : stmt :=
  match cs with
  | [] => skip
  | (loc, c) :: cs' => seq (expand loc c) (run_checks cs')
  end.

(** Destruction of the static [unit_test_failures] when the process
    ends: the banner is printed and, with failures, [std::exit] sets
    the status. *)
Definition teardown : stmt :=
  fun w =>
    let (text, status) := pvt.dtor (unit_test_failures w) in
    match status with
    | Some st => Exited st (print text w)
    | None => Running (print text w)
    end.

(** Exit status of a process whose [main] ended with [main_status]:
    the status given to [std::exit] by the destructor if it called it,
    the status of [main] otherwise. *)
Definition exit_status (main_status : Z) (w : world) : Z :=
  match teardown w with
  | Exited st _ => st
  | Running _ => main_status
  end.

(** Text on [std::cout] once the process is over. *)
Definition final_output (w : world) : string :=
  match teardown w with
  | Exited _ w' => cout w'
  | Running w' => cout w'
  end.

(** [unit_test_failures += i;] as a statement: the object is updated
    and the returned copy, a temporary, is destroyed at the end of the
    expression. *)
Definition add_assign_statement (i : Z) : stmt :=
  fun w =>
    let (copy, updated) := pvt.operator_add_assign (unit_test_failures w) i in
    let w' := {| cout := cout w; unit_test_failures := updated |} in
    let (text, status) := pvt.dtor copy in
    match status with
    | Some st => Exited st (print text w')
    | None => Running (print text w')
    end.

End Process.

(** ** What the specification says of a check

    The predicate of each check (the table of the specification), the
    source texts of its operands and the stringified values its
    diagnostic shows. *)

Definition predicate (c : check_call) : bool :=
  match c with
  | CHECK_ASSERT _ _ x => truthy x
  | CHECK_EQUAL _ _ _ _ _ x y => op_eq x y
  | CHECK_EQUAL_THRESH _ _ _ _ _ _ _ _ x y eps => op_le (std_abs (op_sub x y)) eps
  | CHECK_EQUAL_APPROX _ _ _ _ _ _ _ x y => equal_approx x y
  | CHECK_NE _ _ _ _ _ x y => op_ne x y
  | CHECK_LT _ _ _ _ _ x y => op_lt x y
  | CHECK_GT _ _ _ _ _ x y => op_gt x y
  | CHECK_LE _ _ _ _ _ x y => op_le x y
  | CHECK_GE _ _ _ _ _ x y => op_ge x y
  | CHECK_SIMD_EQUAL _ _ _ _ _ _ x y => all (op_eq x y)
  | CHECK_SIMD_EQUAL_THRESH _ _ _ _ _ _ _ _ x y eps =>
      all (op_lt (abs (op_sub x y)) eps)
  end.

Definition operand_texts (c : check_call) : list string :=
  match c with
  | CHECK_ASSERT _ xs _ => [xs]
  | CHECK_EQUAL _ _ _ xs ys _ _
  | CHECK_EQUAL_THRESH _ _ _ _ _ _ xs ys _ _ _
  | CHECK_EQUAL_APPROX _ _ _ _ _ xs ys _ _
  | CHECK_NE _ _ _ xs ys _ _
  | CHECK_LT _ _ _ xs ys _ _
  | CHECK_GT _ _ _ xs ys _ _
  | CHECK_LE _ _ _ xs ys _ _
  | CHECK_GE _ _ _ xs ys _ _
  | CHECK_SIMD_EQUAL _ _ _ _ xs ys _ _
  | CHECK_SIMD_EQUAL_THRESH _ _ _ _ _ _ xs ys _ _ _ => [xs; ys]
  end.

(** The stringified operand values; a one-operand check has no
    overload of [<<] at hand and none is listed for it. *)
Definition operand_values (c : check_call) : list string :=
  match c with
  | CHECK_ASSERT _ _ _ => []
  | CHECK_EQUAL _ _ _ _ _ x y
  | CHECK_EQUAL_THRESH _ _ _ _ _ _ _ _ x y _
  | CHECK_EQUAL_APPROX _ _ _ _ _ _ _ x y
  | CHECK_NE _ _ _ _ _ x y
  | CHECK_LT _ _ _ _ _ x y
  | CHECK_GT _ _ _ _ _ x y
  | CHECK_LE _ _ _ _ _ x y
  | CHECK_GE _ _ _ _ _ x y
  | CHECK_SIMD_EQUAL _ _ _ _ _ _ x y
  | CHECK_SIMD_EQUAL_THRESH _ _ _ _ _ _ _ _ x y _ => [put x; put y]
  end.

Definition two_operands (c : check_call) : bool :=
  match c with
  | CHECK_ASSERT _ _ _ => false
  | _ => true
  end.

(** The block a failing check prints, piece by piece: the relation
    between the two source texts, the difference the threshold and the
    approximate check add, and the whole block. A check of one operand
    shows its source text and nothing else. *)
Definition relation_text (c : check_call) : string :=
  match c with
  | CHECK_ASSERT _ _ _ => ""
  | CHECK_NE _ _ _ _ _ _ _ => " != "
  | CHECK_LT _ _ _ _ _ _ _ => " < "
  | CHECK_GT _ _ _ _ _ _ _ => " > "
  | CHECK_LE _ _ _ _ _ _ _ => " <= "
  | CHECK_GE _ _ _ _ _ _ _ => " >= "
  | _ => " == "
  end.

Definition shown_difference (c : check_call) : option string :=
  match c with
  | CHECK_EQUAL_THRESH _ _ _ _ _ _ _ _ x y _ =>
      Some (put (std_abs (op_sub x y)))
  | CHECK_EQUAL_APPROX _ _ _ _ _ _ _ x y => Some (put (op_sub x y))
  | _ => None
  end.

Definition diagnostic {term : Terminal} (loc : site) (c : check_call) : string :=
  failed_at loc ++
  match operand_texts c, operand_values c with
  | [xs], [] => xs ++ nl
  | [xs; ys], [vx; vy] =>
      xs ++ relation_text c ++ ys ++ nl
        ++ tab ++ "values were '" ++ vx ++ "' and '" ++ vy ++ "'"
        ++ match shown_difference c with
           | Some d => ", diff was " ++ d ++ nl
           | None => nl
           end
  | _, _ => ""
  end.

(** The number of places of [s] at which [t] starts. *)
Fixpoint occurrences (t s : string) : nat :=
  ((if String.prefix t s then 1 else 0)
   + match s with
     | EmptyString => 0
     | String _ s' => occurrences t s'
     end)%nat.

(** ** Exact arithmetic

    The rational number a finite float stands for (0 for the others),
    and the relative tolerance of the specification evaluated on
    rationals: [|x - y| <= 0.001 * max(|x|, |y|)]. *)
Definition exact (x : spec_float) : Q :=
  match x with
  | S754_finite s m e =>
      ((if s then -1 else 1) * inject_Z (Zpos m) * Qpower 2 e)%Q
  | _ => 0%Q
  end.

Definition within_tolerance_exact (x y : Q) : bool :=
  Qle_bool (Qabs (x - y))
           ((1 # 1000) * (if Qle_bool (Qabs x) (Qabs y) then Qabs y else Qabs x)).

(** ** The relative tolerance in single precision

    Written from the words of the specification with the operations of
    IEEE-754 binary32 themselves: [thousandth] is the float nearest to
    1/1000, [larger] the greater of two magnitudes, and the tolerance
    holds for a difference [d] and operands [a], [b] when [|d|]
    compares less than or equal to [thousandth * larger |a| |b|]. *)
Definition thousandth : spec_float :=
  SFdiv 24 128 (binary_normalize 24 128 1 0 false)
               (binary_normalize 24 128 1000 0 false).

Definition larger (a b : spec_float) : spec_float :=
  if SFleb a b then b else a.

Definition relative_tolerance_holds (d a b : spec_float) : Prop :=
  let bound := SFmul 24 128 thousandth (larger (SFabs a) (SFabs b)) in
  SFcompare (SFabs d) bound = Some Lt \/ SFcompare (SFabs d) bound = Some Eq.

(** The number of checks of a test body whose predicate is false. *)
Definition failing (cs : list (site * check_call)) : Z :=
  Z.of_nat (length (filter (fun lc => negb (predicate (snd lc))) cs)).

(** A check passes in a world when its expansion leaves it as it is. *)
Definition passes {term : Terminal} (loc : site) (c : check_call) (w : world) : Prop :=
  expand loc c w = Running w.

(** The rendering of a sequence the specification words:
    [{v1,v2,...,vn}]. *)
Fixpoint comma_tail {T} `{Streamable T} (vs : list T) : string :=
  match vs with
  | [] => ""
  | v :: vs' => "," ++ put v ++ comma_tail vs'
  end.

Definition braced {T} `{Streamable T} (v : list T) : string :=
  match v with
  | [] => "{}"
  | v1 :: vs => "{" ++ put v1 ++ comma_tail vs ++ "}"
  end.

(** Substring search, the decision procedure for [occurs_in]. *)
Fixpoint has_infix (t s : string) : bool :=
  if String.prefix t s then true
  else match s with
       | EmptyString => false
       | String _ s' => has_infix t s'
       end.

(** A property of the operands holding in every lane, or in some lane,
    of three vectors. *)
Definition every_lane (P : float -> float -> float -> Prop)
    (x y e : simd.vfloat4) : Prop :=
  P (simd.lane0 x) (simd.lane0 y) (simd.lane0 e)
  /\ P (simd.lane1 x) (simd.lane1 y) (simd.lane1 e)
  /\ P (simd.lane2 x) (simd.lane2 y) (simd.lane2 e)
  /\ P (simd.lane3 x) (simd.lane3 y) (simd.lane3 e).

Definition some_lane (P : float -> float -> float -> Prop)
    (x y e : simd.vfloat4) : Prop :=
  P (simd.lane0 x) (simd.lane0 y) (simd.lane0 e)
  \/ P (simd.lane1 x) (simd.lane1 y) (simd.lane1 e)
  \/ P (simd.lane2 x) (simd.lane2 y) (simd.lane2 e)
  \/ P (simd.lane3 x) (simd.lane3 y) (simd.lane3 e).

(** [std::isfinite]: a zero, a subnormal or a normal number. *)
Definition is_finite (x : float) : bool :=
  match x with
  | S754_zero _ | S754_finite _ _ _ => true
  | S754_infinity _ | S754_nan => false
  end.

(** The float [+0.0f]. *)
Definition fzero : float := S754_zero false.

(** ** A small test program

    Ten checks on [int] operands, written as a test file would have
    them; the second, the sixth and the ninth fail. *)

Definition here (n : Z) : site := {| file := "unittest_test.cpp"; line := n |}.

Definition ten_checks : list (site * check_call) :=
  [ (here 10, CHECK_EQUAL _ _ _ "a" "5" 5 5);
    (here 11, CHECK_EQUAL _ _ _ "a" "b" 5 6);
    (here 12, CHECK_NE _ _ _ "a" "b" 5 6);
    (here 13, CHECK_LT _ _ _ "a" "b" 5 6);
    (here 14, CHECK_LE _ _ _ "a" "a" 5 5);
    (here 15, CHECK_GT _ _ _ "a" "b" 5 6);
    (here 16, CHECK_GE _ _ _ "b" "a" 6 5);
    (here 17, CHECK_ASSERT _ "b - a" (6 - 5));
    (here 18, CHECK_ASSERT _ "a - a" (5 - 5));
    (here 19, CHECK_EQUAL _ _ _ "v" "v" [1; 2; 3] [1; 2; 3]) ].

(** * Properties *)

(** ** Strings *)

Section StringFacts.

Lemma append_assoc (s t u : string) : (s ++ t) ++ u = s ++ t ++ u.
Proof.
  induction s as [|a s IH]; simpl; [reflexivity | now rewrite IH].
Qed.

Lemma append_empty_r (s : string) : s ++ "" = s.
Proof.
  induction s as [|a s IH]; simpl; [reflexivity | now rewrite IH].
Qed.

Lemma length_append (s t : string) :
  String.length (s ++ t) = (String.length s + String.length t)%nat.
Proof.
  induction s as [|a s IH]; simpl; [reflexivity | now rewrite IH].
Qed.

Lemma append_fixed_inv (s t : string) : s ++ t = s -> t = "".
Proof.
  intros E. apply (f_equal String.length) in E.
  rewrite length_append in E.
  destruct t; [reflexivity | simpl in E; lia].
Qed.

Lemma prefix_append (t a : string) : String.prefix t (t ++ a) = true.
Proof.
  induction t as [|c t IH]; simpl.
  - now destruct a.
  - destruct (ascii_dec c c); [exact IH | congruence].
Qed.

Lemma prefix_inv (t s : string) :
  String.prefix t s = true -> exists a, s = t ++ a.
Proof.
  revert s. induction t as [|c t IH]; intros s P.
  - now exists s.
  - destruct s as [|d s]; simpl in P; [discriminate|].
    destruct (ascii_dec c d) as [->|]; [|discriminate].
    destruct (IH _ P) as [a ->]. now exists a.
Qed.

Lemma has_infix_unfold (t s : string) :
  has_infix t s =
  if String.prefix t s then true
  else match s with
       | EmptyString => false
       | String _ s' => has_infix t s'
       end.
Proof. destruct s; reflexivity. Qed.

Lemma has_infix_occurs (t s : string) : has_infix t s = true <-> occurs_in t s.
Proof.
  split.
  - induction s as [|d s IH]; rewrite has_infix_unfold.
    + destruct (String.prefix t "") eqn:P; [|discriminate].
      intros _. destruct (prefix_inv _ _ P) as [a E]. now exists "", a.
    + destruct (String.prefix t (String d s)) eqn:P.
      * intros _. destruct (prefix_inv _ _ P) as [a E]. now exists "", a.
      * intros H. destruct (IH H) as (b & a & ->).
        now exists (String d b), a.
  - intros (b & a & ->). induction b as [|d b IH]; rewrite has_infix_unfold.
    + change ("" ++ t ++ a) with (t ++ a). now rewrite prefix_append.
    + change (String d b ++ t ++ a) with (String d (b ++ t ++ a)).
      destruct (String.prefix t (String d (b ++ t ++ a))); [reflexivity | exact IH].
Qed.

Lemma occurs_in_middle (b t a : string) : occurs_in t (b ++ t ++ a).
Proof. now exists b, a. Qed.

Lemma occurs_in_append_l (t s u : string) : occurs_in t s -> occurs_in t (u ++ s).
Proof.
  intros (b & a & ->). exists (u ++ b), a. now rewrite append_assoc.
Qed.

Lemma occurs_in_append_r (t s u : string) : occurs_in t s -> occurs_in t (s ++ u).
Proof.
  intros (b & a & ->). exists b, (a ++ u). now rewrite !append_assoc.
Qed.

Lemma occurs_in_head (t a : string) : occurs_in t (t ++ a).
Proof. now exists "", a. Qed.

End StringFacts.

(** An operand piece of a message is found by walking the message
    from the left. *)
Ltac find_piece :=
  solve [ apply occurs_in_head
        | apply occurs_in_append_l; find_piece ].

(** ** The [int] range *)

Lemma wrap_int_small (z : Z) : in_int z -> wrap_int z = z.
Proof.
  unfold in_int, wrap_int, INT_MIN, INT_MAX. intros R.
  rewrite Z.mod_small; lia.
Qed.

Lemma wrap_int_range (z : Z) : in_int (wrap_int z).
Proof.
  unfold in_int, wrap_int, INT_MIN, INT_MAX.
  pose proof (Z.mod_pos_bound (z - -2147483648) (2 ^ 32)). lia.
Qed.

(** ** The counter *)

Lemma preinc_below_max (c : pvt.UnitTestFailureCounter) :
  in_int (pvt.m_failures c) -> pvt.m_failures c < INT_MAX ->
  pvt.operator_preinc c = {| pvt.m_failures := pvt.m_failures c + 1 |}.
Proof.
  intros R B. unfold pvt.operator_preinc. f_equal.
  apply wrap_int_small. unfold in_int, INT_MAX, INT_MIN in *. lia.
Qed.

(** Every operation leaves the count within the range of [int]. *)
Lemma counter_stays_in_int (c : pvt.UnitTestFailureCounter) (i : Z) :
  in_int (pvt.m_failures pvt.ctor)
  /\ in_int (pvt.m_failures (pvt.operator_preinc c))
  /\ in_int (pvt.m_failures (snd (pvt.operator_postinc c)))
  /\ in_int (pvt.m_failures (snd (pvt.operator_add_assign c i))).
Proof.
  repeat split; try apply wrap_int_range; simpl; unfold INT_MIN, INT_MAX; lia.
Qed.

(** ** Macro expansion *)

Section MacroFacts.
Context {term : Terminal}.

(** A printed message is never empty: it starts with ["FAILED: "]
    after the location. *)
Lemma failed_at_nonempty (loc : site) (rest : string) :
  failed_at loc ++ rest <> "".
Proof.
  unfold failed_at. intros E. apply (f_equal String.length) in E.
  rewrite !length_append in E. simpl in E. lia.
Qed.

Lemma print_count_changes (block : string) (w : world) :
  block <> "" -> count_failure (print block w) <> w.
Proof.
  intros NE E. apply (f_equal cout) in E. simpl in E.
  now apply append_fixed_inv in E.
Qed.

Ltac unfold_macros :=
  unfold expand, OIIO_CHECK_ASSERT, OIIO_CHECK_EQUAL, OIIO_CHECK_EQUAL_THRESH,
    OIIO_CHECK_EQUAL_APPROX, OIIO_CHECK_NE, OIIO_CHECK_LT, OIIO_CHECK_GT,
    OIIO_CHECK_LE, OIIO_CHECK_GE, OIIO_CHECK_SIMD_EQUAL,
    OIIO_CHECK_SIMD_EQUAL_THRESH.

(** With a true predicate the expansion is [(void)0]. *)
Lemma expand_true (loc : site) (c : check_call) (w : world) :
  predicate c = true -> expand loc c w = Running w.
Proof.
  destruct c; unfold predicate; intros P; unfold_macros; now rewrite P.
Qed.

(** With a false predicate one message is printed, then the counter
    is incremented. *)
Lemma expand_false (loc : site) (c : check_call) (w : world) :
  predicate c = false ->
  exists rest,
    expand loc c w = Running (count_failure (print (failed_at loc ++ rest) w))
    /\ Forall (fun t => occurs_in t rest) (operand_texts c)
    /\ Forall (fun v => occurs_in v rest) (operand_values c).
Proof.
  destruct c; unfold predicate, operand_texts, operand_values; intros P;
    unfold_macros; rewrite P;
    (eexists; split; [reflexivity | split; repeat constructor; find_piece]).
Qed.

(** The block of a failing check is the one [diagnostic] describes. *)
Lemma expand_false_exact (loc : site) (c : check_call) (w : world) :
  predicate c = false ->
  expand loc c w = Running (count_failure (print (diagnostic loc c) w)).
Proof.
  destruct c; unfold predicate; intros P; unfold_macros; rewrite P;
    reflexivity.
Qed.

Lemma diagnostic_shows (loc : site) (c : check_call) :
  Forall (fun t => occurs_in t (diagnostic loc c)) (operand_texts c)
  /\ Forall (fun v => occurs_in v (diagnostic loc c)) (operand_values c).
Proof.
  destruct c; unfold diagnostic, operand_texts, operand_values,
    relation_text, shown_difference;
    (split; repeat constructor; find_piece).
Qed.

(** The macro on operands that give the same value at every
    evaluation is the macro on these values. *)
Lemma reevaluated_constant {X Y} `{OpEq X Y bool} `{Streamable X} `{Streamable Y}
    (loc : site) (xs ys : string) (x : X) (y : Y) :
  OIIO_CHECK_EQUAL_reevaluated loc xs ys (fun _ => x) (fun _ => y)
  = OIIO_CHECK_EQUAL loc xs ys x y.
Proof. reflexivity. Qed.

Lemma passes_iff_predicate (loc : site) (c : check_call) (w : world) :
  passes loc c w <-> predicate c = true.
Proof.
  unfold passes. split.
  - destruct (predicate c) eqn:P; [reflexivity|].
    destruct (expand_false loc c w P) as (rest & E & _).
    rewrite E. intros [= W]. exfalso.
    revert W. apply print_count_changes, failed_at_nonempty.
  - apply expand_true.
Qed.

(** A body of checks always runs to its end. *)
Lemma run_checks_running (cs : list (site * check_call)) (w : world) :
  exists w', run_checks cs w = Running w'.
Proof.
  revert w. induction cs as [|[loc c] cs IH]; intros w; simpl.
  - now exists w.
  - unfold seq. destruct (predicate c) eqn:P.
    + rewrite (expand_true loc c w P). apply IH.
    + destruct (expand_false loc c w P) as (rest & -> & _). apply IH.
Qed.

(** Every failing check of a body is counted, not just the first. *)
Lemma run_checks_counts_failures (cs : list (site * check_call)) (w : world) :
  in_int (pvt.m_failures (unit_test_failures w)) ->
  pvt.m_failures (unit_test_failures w) + failing cs <= INT_MAX ->
  exists w',
    run_checks cs w = Running w'
    /\ pvt.m_failures (unit_test_failures w')
       = pvt.m_failures (unit_test_failures w) + failing cs.
Proof.
  revert w. induction cs as [|[loc c] cs IH]; intros w R B.
  - exists w. split; [reflexivity|]. unfold failing. simpl. lia.
  - assert (N : 0 <= failing cs) by (unfold failing; lia).
    simpl. unfold seq. destruct (predicate c) eqn:P.
    + rewrite (expand_true loc c w P).
      unfold failing in *. simpl in *. rewrite P in *. simpl in *.
      now apply IH.
    + destruct (expand_false loc c w P) as (rest & -> & _).
      assert (F : failing ((loc, c) :: cs) = 1 + failing cs).
      { unfold failing. simpl filter. rewrite P.
        cbn [negb length]. rewrite Nat2Z.inj_succ. lia. }
      rewrite F in *.
      set (w1 := count_failure (print (failed_at loc ++ rest) w)).
      assert (M : pvt.m_failures (unit_test_failures w1)
                  = pvt.m_failures (unit_test_failures w) + 1).
      { unfold w1. simpl. apply wrap_int_small.
        unfold in_int, INT_MIN, INT_MAX in *. lia. }
      destruct (IH w1) as (w' & E & C).
      * rewrite M. unfold in_int, INT_MIN, INT_MAX in *. lia.
      * rewrite M. lia.
      * exists w'. split; [exact E|]. rewrite C, M. lia.
Qed.

End MacroFacts.

(** ** Single-precision arithmetic *)

Section FloatFacts.

(** The sign given to the rounding functions only ends up as the sign
    of the result. *)
Lemma SFabs_round_aux (s s' : bool) (m e : Z) (l : location) :
  SFabs (binary_round_aux prec emax s m e l)
  = SFabs (binary_round_aux prec emax s' m e l).
Proof.
  unfold binary_round_aux.
  destruct (shr_fexp prec emax m e l) as [mrs1 e1].
  destruct (shr_fexp prec emax _ e1 loc_Exact) as [mrs2 e2].
  destruct (shr_m mrs2); try reflexivity.
  now destruct (e2 <=? emax - prec).
Qed.

Lemma SFabs_round (s s' : bool) (m : positive) (e : Z) :
  SFabs (binary_round prec emax s m e) = SFabs (binary_round prec emax s' m e).
Proof.
  unfold binary_round.
  destruct (shl_align m e _) as [mz ez]. apply SFabs_round_aux.
Qed.

Lemma SFabs_normalize_opp (z e : Z) :
  SFabs (binary_normalize prec emax (- z) e false)
  = SFabs (binary_normalize prec emax z e false).
Proof.
  destruct z; simpl; [reflexivity | apply SFabs_round | apply SFabs_round].
Qed.

(** [|x - y|] and [|y - x|] are the same float. *)
Lemma SFabs_fsub_sym (x y : float) : SFabs (fsub x y) = SFabs (fsub y x).
Proof.
  unfold fsub.
  destruct x as [sx|sx| |sx mx ex], y as [sy|sy| |sy my ey];
    try reflexivity;
    try (destruct sx, sy; reflexivity);
    try (destruct sx; reflexivity); try (destruct sy; reflexivity).
  unfold SFsub. rewrite (Z.min_comm ey ex).
  set (a := cond_Zopp sx _). set (b := cond_Zopp sy _).
  replace (b - a) with (- (a - b)) by lia.
  symmetry. apply SFabs_normalize_opp.
Qed.

Lemma spec_float_nan_dec (x : float) : {x = S754_nan} + {x <> S754_nan}.
Proof. destruct x; (now left) || (right; discriminate). Qed.

Lemma fsub_nan_l (y : float) : fsub S754_nan y = S754_nan.
Proof. reflexivity. Qed.

Lemma fsub_nan_r (x : float) : fsub x S754_nan = S754_nan.
Proof. now destruct x. Qed.

Lemma SFleb_nan_l (b : float) : SFleb S754_nan b = false.
Proof. reflexivity. Qed.

(** [std::max] of two magnitudes does not depend on the order of its
    arguments, except when one of them is a NaN. *)
Lemma std_max_abs_sym (x y : float) :
  x <> S754_nan -> y <> S754_nan ->
  std_max (SFabs x) (SFabs y) = std_max (SFabs y) (SFabs x).
Proof.
  intros Nx Ny.
  destruct x as [sx|sx| |sx mx ex], y as [sy|sy| |sy my ey];
    try congruence; try reflexivity.
  unfold std_max, SFltb, SFabs, SFcompare.
  rewrite (Z.compare_antisym ex ey).
  destruct (Z.compare_spec ex ey) as [E|L|G]; simpl; try reflexivity.
  subst ey.
  change (Pos.compare_cont Eq mx my) with (Pos.compare mx my).
  change (Pos.compare_cont Eq my mx) with (Pos.compare my mx).
  rewrite (Pos.compare_antisym mx my).
  destruct (Pos.compare_spec mx my) as [E|L|G]; simpl; congruence.
Qed.

Lemma SFleb_compare (a b : float) :
  SFleb a b = true <-> SFcompare a b = Some Lt \/ SFcompare a b = Some Eq.
Proof.
  unfold SFleb. destruct (SFcompare a b) as [[| |]|]; split; intros H;
    try reflexivity; try discriminate; try (destruct H; discriminate); auto.
Qed.


Lemma f0_001_literal : float_lit 1 1000 = f0_001.
Proof. reflexivity. Qed.

End FloatFacts.

(** ** Order and rounding of single-precision numbers *)

Section FloatOrder.

Lemma SFcompare_nan_r (x : float) : SFcompare x S754_nan = None.
Proof. now destruct x. Qed.

Lemma SFcompare_refl (x : float) :
  x <> S754_nan -> SFcompare x x = Some Eq.
Proof.
  destruct x as [s|s| |s m e]; intros N; try congruence; try reflexivity.
  - now destruct s.
  - simpl. rewrite Z.compare_refl.
    change (Pos.compare_cont Eq m m) with (Pos.compare m m).
    rewrite Pos.compare_refl. now destruct s.
Qed.

(** Comparing the other way round gives the opposite answer. *)
Lemma SFcompare_antisym (x y : float) :
  SFcompare y x = option_map CompOpp (SFcompare x y).
Proof.
  destruct x as [sx|sx| |sx mx ex], y as [sy|sy| |sy my ey];
    try reflexivity;
    try (destruct sx, sy; reflexivity);
    try (destruct sx; reflexivity); try (destruct sy; reflexivity).
  simpl.
  change (Pos.compare_cont Eq my mx) with (Pos.compare my mx).
  change (Pos.compare_cont Eq mx my) with (Pos.compare mx my).
  rewrite (Z.compare_antisym ex ey), (Pos.compare_antisym mx my).
  destruct sx, sy; simpl; try reflexivity;
    destruct (ex ?= ey); simpl; try reflexivity;
    destruct (mx ?= my)%positive; reflexivity.
Qed.

(** A magnitude is [+0], a positive number, [+inf] or a NaN. *)
Inductive magnitude : float -> Prop :=
| magnitude_zero : magnitude (S754_zero false)
| magnitude_infinity : magnitude (S754_infinity false)
| magnitude_nan : magnitude S754_nan
| magnitude_finite m e : magnitude (S754_finite false m e).

Lemma SFabs_magnitude (x : float) : magnitude (SFabs x).
Proof. destruct x; constructor. Qed.

Lemma shr_1_nonneg (mrs : shr_record) :
  0 <= shr_m mrs -> 0 <= shr_m (shr_1 mrs).
Proof.
  destruct mrs as [m r s]. simpl.
  destruct m as [|p|p]; [simpl; lia | destruct p; simpl; lia | lia].
Qed.

Lemma iter_pos_keeps {A} (P : A -> Prop) (f : A -> A) :
  (forall x, P x -> P (f x)) ->
  forall p x, P x -> P (iter_pos f p x).
Proof.
  intros F. induction p as [p IH|p IH|]; intros x Px; simpl; auto.
Qed.

Lemma shr_fexp_nonneg (m e : Z) (l : location) :
  0 <= m -> 0 <= shr_m (fst (shr_fexp prec emax m e l)).
Proof.
  intros M. unfold shr_fexp, shr.
  assert (S0 : 0 <= shr_m (shr_record_of_loc m l)) by (now destruct l as [|[ | | ]]).
  destruct (fexp prec emax (Zdigits2 m + e) - e) as [|p|p]; simpl; auto.
  apply (iter_pos_keeps (fun r => 0 <= shr_m r)); auto using shr_1_nonneg.
Qed.

Lemma round_nearest_even_nonneg (m : Z) (l : location) :
  0 <= m -> 0 <= round_nearest_even m l.
Proof.
  intros M. destruct l as [|[ | | ]]; simpl; try lia.
  destruct (Z.even m); lia.
Qed.

(** Rounding a non-negative significand with a positive sign gives a
    magnitude that is not a NaN. *)
Lemma round_aux_nonneg (m e : Z) (l : location) :
  0 <= m ->
  SFleb (S754_zero false) (binary_round_aux prec emax false m e l) = true.
Proof.
  intros M. unfold binary_round_aux.
  pose proof (shr_fexp_nonneg m e l M) as N1.
  destruct (shr_fexp prec emax m e l) as [mrs1 e1]. simpl in N1.
  pose proof (shr_fexp_nonneg _ e1 loc_Exact
                (round_nearest_even_nonneg _ (loc_of_shr_record mrs1) N1)) as N2.
  destruct (shr_fexp prec emax _ e1 loc_Exact) as [mrs2 e2]. simpl in N2.
  destruct (shr_m mrs2) as [|p|p]; [reflexivity | | lia].
  now destruct (e2 <=? emax - prec).
Qed.

(** The difference of a finite number with itself is [+0]. *)
Lemma fsub_diag (x : float) : is_finite x = true -> fsub x x = fzero.
Proof.
  destruct x as [s|s| |s m e]; try discriminate; intros _.
  - now destruct s.
  - unfold fsub, SFsub. now rewrite Z.sub_diag.
Qed.

Lemma std_max_diag (a : float) : std_max a a = a.
Proof. unfold std_max. now destruct (SFltb a a). Qed.

End FloatOrder.

Ltac split_compares :=
  change (Pos.compare_cont Eq) with Pos.compare in *;
  repeat match goal with
         | H : context [(?a ?= ?b)%Z] |- _ =>
             destruct (Z.compare_spec a b); subst
         | |- context [(?a ?= ?b)%Z] =>
             destruct (Z.compare_spec a b); subst
         | H : context [(?a ?= ?b)%positive] |- _ =>
             destruct (Pos.compare_spec a b); subst
         | |- context [(?a ?= ?b)%positive] =>
             destruct (Pos.compare_spec a b); subst
         end;
  simpl in *; try reflexivity; try discriminate; try lia.

Lemma SFleb_trans (a b c : float) :
  SFleb a b = true -> SFleb b c = true -> SFleb a c = true.
Proof.
  unfold SFleb, SFcompare.
  destruct a as [sa|sa| |sa ma ea], b as [sb|sb| |sb mb eb],
           c as [sc|sc| |sc mc ec];
    repeat match goal with s : bool |- _ => destruct s end;
    try reflexivity; try discriminate; intros H1 H2; split_compares.
Qed.

Lemma SFltb_leb_trans (a b c : float) :
  SFltb a b = true -> SFleb b c = true -> SFltb a c = true.
Proof.
  unfold SFltb, SFleb, SFcompare.
  destruct a as [sa|sa| |sa ma ea], b as [sb|sb| |sb mb eb],
           c as [sc|sc| |sc mc ec];
    repeat match goal with s : bool |- _ => destruct s end;
    try reflexivity; try discriminate; intros H1 H2; split_compares.
Qed.

(** ** Operands of other types *)

Section AnyFormat.
Variables p em : Z.

Lemma SFabs_round_aux_any (s s' : bool) (m e : Z) (l : location) :
  SFabs (binary_round_aux p em s m e l) = SFabs (binary_round_aux p em s' m e l).
Proof.
  unfold binary_round_aux.
  destruct (shr_fexp p em m e l) as [mrs1 e1].
  destruct (shr_fexp p em _ e1 loc_Exact) as [mrs2 e2].
  destruct (shr_m mrs2); try reflexivity.
  now destruct (e2 <=? em - p).
Qed.

Lemma SFabs_normalize_opp_any (z e : Z) :
  SFabs (binary_normalize p em (- z) e false)
  = SFabs (binary_normalize p em z e false).
Proof.
  destruct z; simpl; try reflexivity; unfold binary_round;
    destruct (shl_align _ e _); apply SFabs_round_aux_any.
Qed.

(** In every format [|x - y|] and [|y - x|] are the same number. *)
Lemma SFabs_sub_sym_any (x y : spec_float) :
  SFabs (SFsub p em x y) = SFabs (SFsub p em y x).
Proof.
  destruct x as [sx|sx| |sx mx ex], y as [sy|sy| |sy my ey];
    try reflexivity;
    try (destruct sx, sy; reflexivity);
    try (destruct sx; reflexivity); try (destruct sy; reflexivity).
  unfold SFsub. rewrite (Z.min_comm ey ex).
  set (a := cond_Zopp sx _). set (b := cond_Zopp sy _).
  replace (b - a) with (- (a - b)) by lia.
  symmetry. apply SFabs_normalize_opp_any.
Qed.

Lemma SFsub_nan_any (x y : spec_float) :
  x = S754_nan \/ y = S754_nan -> SFsub p em x y = S754_nan.
Proof. intros [-> | ->]; [reflexivity | now destruct x]. Qed.

End AnyFormat.

Section Conversions.

Lemma round_not_nan (s : bool) (m : positive) (e : Z) :
  binary_round prec emax s m e <> S754_nan.
Proof.
  intros N. apply (f_equal SFabs) in N.
  rewrite (SFabs_round s false) in N.
  unfold binary_round in N. destruct (shl_align m e _) as [mz ez].
  pose proof (round_aux_nonneg (Zpos mz) ez loc_Exact ltac:(lia)) as P.
  destruct (binary_round_aux prec emax false (Z.pos mz) ez loc_Exact);
    discriminate.
Qed.

Lemma float_of_Z_not_nan (z : Z) : float_of_Z z <> S754_nan.
Proof.
  unfold float_of_Z, binary_normalize.
  destruct z; [discriminate | apply round_not_nan | apply round_not_nan].
Qed.

Lemma float_of_Z_opp (z : Z) : SFabs (float_of_Z (- z)) = SFabs (float_of_Z z).
Proof. apply SFabs_normalize_opp. Qed.

(** The narrowing of a [double] is a NaN only for a NaN, and its
    magnitude depends on the magnitude alone. *)
Lemma float_of_double_nan (d : double) :
  float_of_double d = S754_nan <-> double_bits d = S754_nan.
Proof.
  destruct d as [[s|s| |s m e]]; unfold float_of_double; simpl;
    split; intros H; try discriminate; try reflexivity.
  now apply round_not_nan in H.
Qed.

Lemma float_of_double_abs (a b : spec_float) :
  SFabs a = SFabs b ->
  SFabs (float_of_double (mk_double a)) = SFabs (float_of_double (mk_double b)).
Proof.
  destruct a as [sa|sa| |sa ma ea], b as [sb|sb| |sb mb eb];
    simpl; intros E; try discriminate; try reflexivity.
  injection E as -> ->. unfold float_of_double. simpl. apply SFabs_round.
Qed.

(** The comparison at the heart of [equal_approx], on the converted
    difference [d] and the converted operands [a] and [b]. *)
Lemma template_unfold {X Y D : Type}
    `{OpSub X Y D} `{ToFloat D} `{ToFloat X} `{ToFloat Y} (x : X) (y : Y) :
  pvt.equal_approx_template x y
  = SFleb (SFabs (to_float (op_sub x y)))
          (fmul f0_001 (std_max (SFabs (to_float x)) (SFabs (to_float y)))).
Proof. reflexivity. Qed.

Lemma tolerance_sym (d d' a b : float) :
  SFabs d = SFabs d' ->
  (a <> S754_nan /\ b <> S754_nan) \/ SFabs d = S754_nan ->
  SFleb (SFabs d) (fmul f0_001 (std_max (SFabs a) (SFabs b)))
  = SFleb (SFabs d') (fmul f0_001 (std_max (SFabs b) (SFabs a))).
Proof.
  intros E [[Na Nb] | N].
  - now rewrite E, (std_max_abs_sym a b Na Nb).
  - rewrite <- E, N. reflexivity.
Qed.

(** On magnitudes that are not NaNs, [std::max] is the greater one. *)
Lemma std_max_is_larger (a b : float) :
  a <> S754_nan -> b <> S754_nan ->
  std_max (SFabs a) (SFabs b) = larger (SFabs a) (SFabs b).
Proof.
  intros Na Nb. unfold std_max, larger, SFltb, SFleb, SFcompare.
  destruct a as [sa|sa| |sa ma ea], b as [sb|sb| |sb mb eb];
    try congruence; try reflexivity.
  simpl. split_compares.
Qed.

Lemma thousandth_literal : thousandth = f0_001.
Proof. reflexivity. Qed.

Lemma tolerance_holds_iff (d a b : float) :
  (a <> S754_nan /\ b <> S754_nan) \/ SFabs d = S754_nan ->
  SFleb (SFabs d) (fmul f0_001 (std_max (SFabs a) (SFabs b))) = true
  <-> relative_tolerance_holds d a b.
Proof.
  unfold relative_tolerance_holds. rewrite thousandth_literal.
  intros [[Na Nb] | N].
  - rewrite <- (std_max_is_larger a b Na Nb). apply SFleb_compare.
  - rewrite N. simpl. split; [discriminate | intros [H|H]; discriminate].
Qed.

Lemma SFabs_nan (d : float) : d = S754_nan -> SFabs d = S754_nan.
Proof. now intros ->. Qed.

End Conversions.

(** ** Failing and passing checks *)

(** C1, as amended. Operands are expressions whose evaluation has no
    side effect, so that the values streamed into the message are the
    values compared. A check whose predicate is false, evaluated while
    the counter is below [INT_MAX], raises the counter by exactly one
    and appends exactly one block to [std::cout], the block
    [diagnostic] describes: the location with ["FAILED: "], then for a
    check of two operands the two source texts around the relation, a
    line with the two stringified values and, for the threshold and the
    approximate check, the difference; for [OIIO_CHECK_ASSERT] the
    source text of its one expression, a newline and nothing else. *)
Theorem failed_check_counts_once_and_reports
    (term : Terminal) (loc : site) (c : check_call) (w : world) :
  predicate c = false ->
  in_int (pvt.m_failures (unit_test_failures w)) ->
  pvt.m_failures (unit_test_failures w) < INT_MAX ->
  exists block,
    expand loc c w
    = Running {| cout := cout w ++ block;
                 unit_test_failures :=
                   {| pvt.m_failures := pvt.m_failures (unit_test_failures w) + 1 |} |}
    /\ block = diagnostic loc c
    /\ (exists rest, block = failed_at loc ++ rest)
    /\ Forall (fun t => occurs_in t block) (operand_texts c)
    /\ Forall (fun v => occurs_in v block) (operand_values c)
    /\ (two_operands c = true ->
        length (operand_texts c) = 2%nat /\ length (operand_values c) = 2%nat)
    /\ (two_operands c = false ->
        exists xs, operand_texts c = [xs] /\ block = failed_at loc ++ xs ++ nl).
Proof.
  intros P R B.
  exists (diagnostic loc c).
  destruct (diagnostic_shows loc c) as [T V].
  split; [|split; [reflexivity|split; [|split; [exact T|split; [exact V|split]]]]].
  - rewrite (expand_false_exact loc c w P). unfold count_failure, print. simpl.
    now rewrite preinc_below_max.
  - unfold diagnostic. eexists. reflexivity.
  - destruct c; simpl; intros; try discriminate; split; reflexivity.
  - destruct c; simpl; intros; try discriminate.
    eexists. split; reflexivity.
Qed.

Lemma failed_check_counts_once_and_reports_witness :
  exists block,
    expand (term := plain_terminal) (here 11)
      (CHECK_EQUAL int_eq int_streamable int_streamable "a" "b" 5 6)
      initial_world
    = Running {| cout := "" ++ block;
                 unit_test_failures := {| pvt.m_failures := 0 + 1 |} |}
    /\ block = "unittest_test.cpp:11:" ++ nl ++ "FAILED: a == b" ++ nl
                 ++ tab ++ "values were '5' and '6'" ++ nl
    /\ occurrences "FAILED: " block = 1%nat
    /\ occurs_in "a" block /\ occurs_in "b" block
    /\ occurs_in "5" block /\ occurs_in "6" block.
Proof.
  destruct (failed_check_counts_once_and_reports plain_terminal (here 11)
              (CHECK_EQUAL int_eq int_streamable int_streamable "a" "b" 5 6)
              initial_world)
    as (block & E & D & _ & T & V & _).
  - reflexivity.
  - unfold in_int, INT_MIN, INT_MAX. simpl. lia.
  - unfold INT_MAX. simpl. lia.
  - exists block. split; [exact E|].
    inversion T as [|? ? Ta T']; subst. inversion T' as [|? ? Tb ?]; subst.
    inversion V as [|? ? Va V']; subst. inversion V' as [|? ? Vb ?]; subst.
    repeat split; try assumption; reflexivity.
Defined.

(** C1 as stated fails in three places. [OIIO_CHECK_ASSERT] shows the
    source text only: a failing [OIIO_CHECK_ASSERT(ok)] with [ok]
    false prints ["t.cpp:7:\nFAILED: ok\n"] on a plain terminal, where
    the stringified value ["0"] of the operand does not occur. At the
    end of the range of [int] the increment of a counter that holds
    [INT_MAX] does not give [INT_MAX + 1] (it wraps to [INT_MIN] here;
    C++ leaves it undefined). And the values in the message are those
    of a second evaluation of the operands: with [i] holding 5,
    [OIIO_CHECK_EQUAL(i++, n)] against [n = 6] compares 5 with 6 and
    prints ["values were '6' and '6'"], where the value 5 that failed
    the comparison does not occur. *)
Lemma failed_assert_shows_no_value :
  (let c := CHECK_ASSERT bool_truthy "ok" false in
   predicate c = false
   /\ exists block,
        expand (term := plain_terminal) {| file := "t.cpp"; line := 7 |} c
          initial_world
        = Running {| cout := block;
                     unit_test_failures := {| pvt.m_failures := 1 |} |}
        /\ ~ occurs_in (put false) block)
  /\ (let c := CHECK_EQUAL int_eq int_streamable int_streamable "a" "b" 5 6 in
      let w := {| cout := "";
                  unit_test_failures := {| pvt.m_failures := INT_MAX |} |} in
      predicate c = false
      /\ exists block,
           expand (term := plain_terminal) (here 11) c w
           = Running {| cout := block;
                        unit_test_failures := {| pvt.m_failures := INT_MIN |} |}
           /\ INT_MIN <> INT_MAX + 1)
  /\ (let i := fun k : nat => 5 + Z.of_nat k in
      let n := fun _ : nat => 6 in
      op_eq (i 0%nat) (n 0%nat) = false
      /\ exists block,
           OIIO_CHECK_EQUAL_reevaluated (term := plain_terminal) (here 11)
             "i++" "n" i n initial_world
           = Running {| cout := block;
                        unit_test_failures := {| pvt.m_failures := 1 |} |}
           /\ occurs_in "values were '6' and '6'" block
           /\ ~ occurs_in (put (i 0%nat)) block).
Proof.
  split; [|split].
  - split; [reflexivity|].
    eexists. split; [reflexivity|].
    intros H. apply has_infix_occurs in H. vm_compute in H. discriminate.
  - split; [reflexivity|].
    eexists. split; [reflexivity | discriminate].
  - split; [reflexivity|].
    eexists. split; [reflexivity|]. split.
    + apply has_infix_occurs. reflexivity.
    + intros H. apply has_infix_occurs in H. vm_compute in H. discriminate.
Qed.

(** C2. A check whose predicate is true leaves the world as it is: the
    counter keeps its value and nothing is added to [std::cout]. *)
Theorem passed_check_is_silent
    (term : Terminal) (loc : site) (c : check_call) (w : world) :
  predicate c = true ->
  exists w',
    expand loc c w = Running w'
    /\ unit_test_failures w' = unit_test_failures w
    /\ cout w' = cout w.
Proof.
  intros P. exists w. now rewrite (expand_true loc c w P).
Qed.

Lemma passed_check_is_silent_witness :
  exists w',
    expand (term := plain_terminal) (here 10)
      (CHECK_EQUAL int_eq int_streamable int_streamable "a" "5" 5 5)
      initial_world = Running w'
    /\ unit_test_failures w' = unit_test_failures initial_world
    /\ cout w' = cout initial_world.
Proof.
  apply (passed_check_is_silent plain_terminal (here 10)
           (CHECK_EQUAL int_eq int_streamable int_streamable "a" "5" 5 5)
           initial_world).
  reflexivity.
Defined.

(** C8. No check ends the process: whatever the operands and the
    world, the expansion of a check lets the program run on, in the
    same world or in the world with one more block printed and the
    counter incremented, and the checks that follow it in a test body
    are run from there. *)
Theorem checks_never_abort
    (term : Terminal) (loc : site) (c : check_call) (w : world) :
  exists w',
    expand loc c w = Running w'
    /\ (w' = w \/ exists block, w' = count_failure (print block w))
    /\ (forall rest, run_checks ((loc, c) :: rest) w = run_checks rest w')
    /\ (forall rest, exists w'', run_checks ((loc, c) :: rest) w = Running w'').
Proof.
  destruct (predicate c) eqn:P.
  - exists w. rewrite (expand_true loc c w P). repeat split.
    + now left.
    + intros rest. simpl. unfold seq. now rewrite (expand_true loc c w P).
    + intros rest. apply run_checks_running.
  - destruct (expand_false loc c w P) as (rest & E & _).
    eexists. rewrite E. repeat split.
    + right. eexists. reflexivity.
    + intros cs. simpl. unfold seq. now rewrite E.
    + intros cs. apply run_checks_running.
Qed.

(** ** The end of the process *)

Lemma exit_status_by_count (term : Terminal) (s : Z) (w : world) :
  exit_status s w
  = if pvt.m_failures (unit_test_failures w) =? 0 then s else 1.
Proof.
  unfold exit_status, teardown, pvt.dtor.
  now destruct (pvt.m_failures (unit_test_failures w) =? 0).
Qed.

Lemma ten_checks_count (term : Terminal) :
  exists out,
    run_checks ten_checks initial_world
    = Running {| cout := out;
                 unit_test_failures := {| pvt.m_failures := 3 |} |}.
Proof. eexists. reflexivity. Qed.

(** C3. When the process ends after a [main] that returned 0, its exit
    status is 0 if the failure count is zero; if the count is not zero
    the status is exactly 1, whatever the count and whatever [main]
    returned. The ten checks of [ten_checks], three of them failing,
    leave the counter at 3 and the exit status at 1. *)
Theorem exit_status_is_zero_or_one (term : Terminal) :
  (forall w, pvt.m_failures (unit_test_failures w) = 0 -> exit_status 0 w = 0)
  /\ (forall w s, pvt.m_failures (unit_test_failures w) <> 0 ->
        exit_status s w = 1)
  /\ (exists w,
        run_checks ten_checks initial_world = Running w
        /\ pvt.operator_int (unit_test_failures w) = 3
        /\ forall s, exit_status s w = 1).
Proof.
  split; [|split].
  - intros w Z0. rewrite exit_status_by_count, Z0. reflexivity.
  - intros w s NZ. rewrite exit_status_by_count.
    destruct (Z.eqb_spec (pvt.m_failures (unit_test_failures w)) 0);
      [contradiction | reflexivity].
  - destruct (ten_checks_count term) as (out & E).
    eexists. split; [exact E|]. split; [reflexivity|].
    intros s. now rewrite exit_status_by_count.
Qed.

Lemma exit_status_is_zero_or_one_witness :
  exit_status (term := plain_terminal) 0 initial_world = 0
  /\ exit_status (term := plain_terminal) 3
       {| cout := ""; unit_test_failures := {| pvt.m_failures := 3 |} |} = 1.
Proof.
  split.
  - apply (proj1 (exit_status_is_zero_or_one plain_terminal) initial_world).
    reflexivity.
  - apply (proj1 (proj2 (exit_status_is_zero_or_one plain_terminal))
             {| cout := ""; unit_test_failures := {| pvt.m_failures := 3 |} |} 3).
    simpl. discriminate.
Defined.

(** ** The operations of the counter *)

(** C7, as amended. On a counter within the range of [int]: the prefix
    and the postfix increment of a counter below [INT_MAX] raise the
    stored count by exactly one, and the compound addition of [i]
    changes it by exactly [i] when the sum stays in range, so that it
    does not decrease when [i] is not negative. The conversion to [int]
    reads the count and changes nothing. *)
Theorem counter_operations_do_not_decrease
    (c : pvt.UnitTestFailureCounter) :
  in_int (pvt.m_failures c) ->
  (pvt.m_failures c < INT_MAX ->
     pvt.m_failures (pvt.operator_preinc c) = pvt.m_failures c + 1
     /\ pvt.m_failures (snd (pvt.operator_postinc c)) = pvt.m_failures c + 1
     /\ fst (pvt.operator_postinc c) = pvt.m_failures c)
  /\ (forall i, in_int (pvt.m_failures c + i) ->
        pvt.m_failures (snd (pvt.operator_add_assign c i)) = pvt.m_failures c + i
        /\ (0 <= i ->
            pvt.m_failures c <= pvt.m_failures (snd (pvt.operator_add_assign c i))))
  /\ pvt.operator_int c = pvt.m_failures c.
Proof.
  intros R. split; [|split].
  - intros B. rewrite (preinc_below_max c R B). simpl.
    rewrite wrap_int_small; [auto|].
    unfold in_int, INT_MIN, INT_MAX in *. lia.
  - intros i Ri. simpl. rewrite (wrap_int_small _ Ri). split; lia.
  - reflexivity.
Qed.

Lemma counter_operations_do_not_decrease_witness :
  let c := {| pvt.m_failures := 3 |} in
  pvt.m_failures (pvt.operator_preinc c) = 3 + 1
  /\ pvt.m_failures c <= pvt.m_failures (snd (pvt.operator_add_assign c 2)).
Proof.
  intros c.
  assert (R : in_int (pvt.m_failures c))
    by (unfold in_int, INT_MIN, INT_MAX; simpl; lia).
  destruct (counter_operations_do_not_decrease c R) as (I & A & _).
  split.
  - apply I. unfold INT_MAX. simpl. lia.
  - apply (A 2); [unfold in_int, INT_MIN, INT_MAX; simpl; lia | lia].
Defined.

(** C7 as stated fails for the compound addition: [operator+=] takes
    any [int], and adding [-1] to a count of 3 leaves 2. At the end of
    the range of [int] an increment does not raise the count either
    (it wraps to [INT_MIN] here; C++ leaves it undefined). *)
Lemma add_assign_negative_decreases :
  (let c := {| pvt.m_failures := 3 |} in
   pvt.m_failures (snd (pvt.operator_add_assign c (-1))) = 2
   /\ ~ (pvt.m_failures c
         <= pvt.m_failures (snd (pvt.operator_add_assign c (-1)))))
  /\ (let c := {| pvt.m_failures := INT_MAX |} in
      pvt.m_failures (pvt.operator_preinc c) = INT_MIN
      /\ ~ (pvt.m_failures c <= pvt.m_failures (pvt.operator_preinc c))).
Proof.
  split; (split; [reflexivity|]); vm_compute; intros H; now apply H.
Qed.

(** ** Printing a vector *)

Lemma concat_comma_tail {T} `{Streamable T} (v1 : T) (vs : list T) :
  String.concat "," (map put (v1 :: vs)) = put v1 ++ comma_tail vs.
Proof.
  revert v1. induction vs as [|v2 vs IH]; intros v1.
  - simpl. now rewrite append_empty_r.
  - change (String.concat "," (map put (v1 :: v2 :: vs)))
      with (put v1 ++ "," ++ String.concat "," (map put (v2 :: vs))).
    now rewrite IH.
Qed.

(** C9. Streaming a sequence [[v1,...,vn]] appends [{v1,v2,...,vn}] to
    the stream: an opening brace, the streamed elements joined by
    commas, a closing brace; [[1,2,3]] is rendered as [{1,2,3}]. *)
Theorem vector_is_braced_and_comma_joined :
  (forall (T : Type) (S : Streamable T) (out : string) (v : list T),
      operator_shl_vector out v = out ++ braced v)
  /\ operator_shl_vector "" [1; 2; 3] = "{1,2,3}"
  /\ put [1; 2; 3] = "{1,2,3}".
Proof.
  split; [|split; reflexivity].
  intros T S out v. unfold operator_shl_vector, Strutil.join. f_equal.
  destruct v as [|v1 vs]; [reflexivity|].
  rewrite concat_comma_tail. unfold braced.
  now rewrite append_assoc.
Qed.

(** ** Approximate equality *)

Lemma equal_approx_nan_l (y : float) : pvt.equal_approx S754_nan y = false.
Proof. reflexivity. Qed.

Lemma equal_approx_nan_r (x : float) : pvt.equal_approx x S754_nan = false.
Proof.
  unfold pvt.equal_approx, simd.all, simd.abs. now rewrite fsub_nan_r.
Qed.

Lemma equal_approx_float_sym (x y : float) :
  pvt.equal_approx x y = pvt.equal_approx y x.
Proof.
  destruct (spec_float_nan_dec x) as [->|Nx].
  { now rewrite equal_approx_nan_l, equal_approx_nan_r. }
  destruct (spec_float_nan_dec y) as [->|Ny].
  { now rewrite equal_approx_nan_l, equal_approx_nan_r. }
  unfold pvt.equal_approx, simd.all, simd.abs, simd.max.
  now rewrite (SFabs_fsub_sym x y), (std_max_abs_sym x y Nx Ny).
Qed.

Lemma equal_approx_double_sym (x y : double) :
  pvt.equal_approx_template x y = pvt.equal_approx_template y x.
Proof.
  rewrite !template_unfold.
  unfold to_float, double_to_float, op_sub, double_sub, dsub.
  apply tolerance_sym.
  - apply float_of_double_abs, SFabs_sub_sym_any.
  - destruct (spec_float_nan_dec (double_bits x)) as [Nx|Nx];
      [|destruct (spec_float_nan_dec (double_bits y)) as [Ny|Ny]].
    + right. unfold float_of_double. simpl.
      now rewrite SFsub_nan_any by (now left).
    + right. unfold float_of_double. simpl.
      now rewrite SFsub_nan_any by (now right).
    + left. split; intros H; apply float_of_double_nan in H; contradiction.
Qed.

Lemma equal_approx_int_sym (x y : Z) :
  in_int (x - y) -> in_int (y - x) ->
  pvt.equal_approx_template x y = pvt.equal_approx_template y x.
Proof.
  intros Rxy Ryx. rewrite !template_unfold.
  unfold to_float, int_to_float, op_sub, int_sub, isub.
  rewrite (wrap_int_small _ Rxy), (wrap_int_small _ Ryx).
  apply tolerance_sym.
  - replace (y - x) with (- (x - y)) by lia. symmetry. apply float_of_Z_opp.
  - left. split; apply float_of_Z_not_nan.
Qed.

(** C10, as amended. [equal_approx(x, y)] and [equal_approx(y, x)] are
    the same for all [float] operands and for all [double] operands,
    NaNs, infinities and zeros of either sign included, and for [int]
    operands whose differences [x - y] and [y - x] do not overflow:
    there the two differences have the same magnitude. *)
Theorem equal_approx_symmetric :
  (forall x y : float, pvt.equal_approx x y = pvt.equal_approx y x)
  /\ (forall x y : double,
        pvt.equal_approx_template x y = pvt.equal_approx_template y x)
  /\ (forall x y : Z,
        in_int (x - y) -> in_int (y - x) ->
        pvt.equal_approx_template x y = pvt.equal_approx_template y x).
Proof.
  split; [exact equal_approx_float_sym|].
  split; [exact equal_approx_double_sym | exact equal_approx_int_sym].
Qed.

Lemma equal_approx_symmetric_witness :
  pvt.equal_approx_template 1000 1001 = pvt.equal_approx_template 1001 1000.
Proof.
  apply (proj2 (proj2 equal_approx_symmetric) 1000 1001);
    unfold in_int, INT_MIN, INT_MAX; lia.
Defined.

(** C10 as stated fails for [unsigned] operands: [1000u - 1001u] wraps
    to [4294967295] before it is converted to [float], so
    [equal_approx(1000u, 1001u)] is false while
    [equal_approx(1001u, 1000u)], whose difference is 1, is true. *)
Lemma equal_approx_unsigned_not_symmetric :
  let x := mk_unsigned 1000 in
  let y := mk_unsigned 1001 in
  unsigned_value (op_sub x y) = 4294967295
  /\ unsigned_value (op_sub y x) = 1
  /\ pvt.equal_approx_template x y = false
  /\ pvt.equal_approx_template y x = true.
Proof. repeat split. Qed.

(** C4, as amended. [equal_approx] works in single precision: the
    operands and their difference, taken in the type of the operands,
    are converted to [float], and the result is true if and only if
    [|x - y|] compares less than or equal to the product of the float
    nearest to 1/1000 and the larger of [|x|] and [|y|], difference and
    product rounded to the nearest float. This holds for operands of
    any type whose conversions are not NaNs, and without condition for
    [float], [double], [int] and [unsigned] operands; a first operand
    that converts to a NaN gives false. The approximate-equality check
    passes exactly when [equal_approx] is true. When [x] and [y] are
    both zero, both sides of the comparison are zero and the check
    passes. The float nearest to 1/1000 is within [2^-34], half a unit
    in its last place, of 1/1000. *)
Theorem equal_approx_relative_tolerance :
  (forall x y : float,
      let m := std_max (SFabs x) (SFabs y) in
      pvt.equal_approx x y = true
      <-> (SFcompare (SFabs (fsub x y)) (fmul f0_001 m) = Some Lt
           \/ SFcompare (SFabs (fsub x y)) (fmul f0_001 m) = Some Eq))
  /\ (forall (term : Terminal) (SX SY SD : Streamable float) loc xs ys
             (x y : float) w,
      passes loc (CHECK_EQUAL_APPROX float_equal_approx float_sub SX SY SD
                    xs ys x y) w
      <-> pvt.equal_approx x y = true)
  /\ (forall sx sy : bool,
      let x := S754_zero sx in
      let y := S754_zero sy in
      SFabs (fsub x y) = S754_zero false
      /\ fmul f0_001 (std_max (SFabs x) (SFabs y)) = S754_zero false
      /\ pvt.equal_approx x y = true)
  /\ (forall (X Y D : Type) (S : OpSub X Y D)
             (TD : ToFloat D) (TX : ToFloat X) (TY : ToFloat Y) (x : X) (y : Y),
      (to_float x <> S754_nan -> to_float y <> S754_nan ->
       (pvt.equal_approx_template x y = true
        <-> relative_tolerance_holds (to_float (op_sub x y))
              (to_float x) (to_float y)))
      /\ (to_float x = S754_nan -> pvt.equal_approx_template x y = false))
  /\ (forall x y : float,
      pvt.equal_approx x y = true
      <-> relative_tolerance_holds (SFsub 24 128 x y) x y)
  /\ (forall x y : double,
      pvt.equal_approx_template x y = true
      <-> relative_tolerance_holds
            (float_of_double (mk_double (SFsub 53 1024 (double_bits x)
                                                       (double_bits y))))
            (float_of_double x) (float_of_double y))
  /\ (forall x y : Z,
      pvt.equal_approx_template x y = true
      <-> relative_tolerance_holds (float_of_Z (wrap_int (x - y)))
            (float_of_Z x) (float_of_Z y))
  /\ (forall x y : unsigned,
      pvt.equal_approx_template x y = true
      <-> relative_tolerance_holds
            (float_of_Z ((unsigned_value x - unsigned_value y) mod 2 ^ 32))
            (float_of_Z (unsigned_value x)) (float_of_Z (unsigned_value y)))
  /\ (pvt.equal_approx_template 0 0 = true
      /\ pvt.equal_approx_template (mk_unsigned 0) (mk_unsigned 0) = true
      /\ forall sx sy : bool,
           pvt.equal_approx_template (mk_double (S754_zero sx))
                                     (mk_double (S754_zero sy)) = true)
  /\ (valid_binary 24 128 thousandth = true
      /\ Qle_bool (Qabs (exact thousandth - (1 # 1000))) (Qpower 2 (-34)) = true).
Proof.
  split; [|split; [|split; [|split; [|split; [|split; [|split; [|split;
    [|split; [|split; vm_compute; reflexivity]]]]]]]]].
  - intros x y m. unfold pvt.equal_approx, simd.all, simd.abs, simd.max.
    apply SFleb_compare.
  - intros. apply passes_iff_predicate.
  - intros [|] [|]; repeat split; reflexivity.
  - intros X Y D S TD TX TY x y. split.
    + intros Nx Ny. rewrite template_unfold. apply tolerance_holds_iff.
      now left.
    + intros N. rewrite template_unfold, N. simpl.
      unfold std_max. simpl. now destruct (SFabs (to_float (op_sub x y))).
  - intros x y.
    change (pvt.equal_approx x y)
      with (SFleb (SFabs (fsub x y))
                  (fmul f0_001 (std_max (SFabs x) (SFabs y)))).
    apply (tolerance_holds_iff (fsub x y) x y).
    destruct (spec_float_nan_dec x) as [->|Nx];
      [right; reflexivity|].
    destruct (spec_float_nan_dec y) as [->|Ny];
      [right; now rewrite fsub_nan_r | now left].
  - intros x y. rewrite template_unfold.
    unfold to_float, double_to_float, op_sub, double_sub, dsub.
    apply tolerance_holds_iff.
    destruct (spec_float_nan_dec (double_bits x)) as [Nx|Nx];
      [|destruct (spec_float_nan_dec (double_bits y)) as [Ny|Ny]].
    + right. unfold float_of_double. simpl.
      now rewrite SFsub_nan_any by (now left).
    + right. unfold float_of_double. simpl.
      now rewrite SFsub_nan_any by (now right).
    + left. split; intros H; apply float_of_double_nan in H; contradiction.
  - intros x y. rewrite template_unfold.
    apply tolerance_holds_iff. left. split; apply float_of_Z_not_nan.
  - intros x y. rewrite template_unfold.
    apply tolerance_holds_iff. left. split; apply float_of_Z_not_nan.
  - repeat split. intros [|] [|]; reflexivity.
Qed.

(** C4 as stated fails in exact arithmetic. On the floats 11987999 and
    11999999 the difference is 12000, above 0.001 times 11999999, but
    the product [0.001f * 11999999.0f] rounds to 12000 and
    [equal_approx] is true. On the doubles 1e-50 and 2e-50, one twice
    the other, every number converted to [float] is zero and
    [equal_approx] is true. *)
Lemma equal_approx_differs_from_exact :
  (let x := S754_finite false 11987999 0 in
   let y := S754_finite false 11999999 0 in
   valid_binary 24 128 x = true /\ valid_binary 24 128 y = true
   /\ Qeq_bool (exact x) (inject_Z 11987999) = true
   /\ Qeq_bool (exact y) (inject_Z 11999999) = true
   /\ within_tolerance_exact (exact x) (exact y) = false
   /\ pvt.equal_approx x y = true)
  /\ (let x := mk_double (S754_finite false 8424983333484575 (-219)) in
      let y := mk_double (S754_finite false 8424983333484575 (-218)) in
      valid_binary 53 1024 (double_bits x) = true
      /\ valid_binary 53 1024 (double_bits y) = true
      /\ Qeq_bool (exact (double_bits y)) (2 * exact (double_bits x)) = true
      /\ within_tolerance_exact (exact (double_bits x)) (exact (double_bits y))
         = false
      /\ pvt.equal_approx_template x y = true).
Proof. split; repeat split; vm_compute; reflexivity. Qed.

(** ** Threshold checks *)




Lemma vall_lanes (b : simd.vbool4) :
  simd.vall b = true
  <-> simd.lane0 b = true /\ simd.lane1 b = true
      /\ simd.lane2 b = true /\ simd.lane3 b = true.
Proof.
  unfold simd.vall. rewrite !andb_true_iff. tauto.
Qed.



(** The third scenario of the specification, [1.0] against [1.0009],
    and the [int] operands 1000 and 1001. *)
Lemma equal_approx_relative_tolerance_witness :
  (relative_tolerance_holds
     (SFsub 24 128 (float_of_Z 1) (float_lit 10009 10000))
     (float_of_Z 1) (float_lit 10009 10000)
   /\ pvt.equal_approx (float_of_Z 1) (float_lit 10009 10000) = true)
  /\ (to_float 1000 <> S754_nan /\ to_float 1001 <> S754_nan
      /\ relative_tolerance_holds (to_float (op_sub 1000 1001))
           (to_float 1000) (to_float 1001)
      /\ pvt.equal_approx_template 1000 1001 = true).
Proof.
  destruct equal_approx_relative_tolerance as (_ & _ & _ & G & F & _).
  assert (T : relative_tolerance_holds
                (SFsub 24 128 (float_of_Z 1) (float_lit 10009 10000))
                (float_of_Z 1) (float_lit 10009 10000))
    by (left; reflexivity).
  assert (N0 : to_float 1000 <> S754_nan) by (vm_compute; discriminate).
  assert (N1 : to_float 1001 <> S754_nan) by (vm_compute; discriminate).
  assert (U : relative_tolerance_holds (to_float (op_sub 1000 1001))
                (to_float 1000) (to_float 1001))
    by (left; reflexivity).
  split; [split; [exact T | exact (proj2 (F _ _) T)]|].
  split; [exact N0|]. split; [exact N1|]. split; [exact U|].
  exact (proj2 (proj1 (G Z Z Z int_sub int_to_float int_to_float int_to_float
                         1000 1001) N0 N1) U).
Defined.

(** ** The scenarios of the specification, run *)

Section Scenarios.

(** One passing [OIIO_CHECK_EQUAL(5, 5)]: the counter stays at 0, the
    process ends with status 0 and the green banner. *)
Example scenario_one_passing_check :
  let w := initial_world in
  expand (term := plain_terminal) (here 1) (CHECK_EQUAL _ _ _ "5" "5" 5 5) w = Running w
  /\ exit_status (term := plain_terminal) 0 w = 0
  /\ final_output (term := plain_terminal) w = "OK" ++ nl.
Proof. repeat split. Qed.

(** One failing [OIIO_CHECK_EQUAL(5, 6)]: the counter becomes 1, the
    message names 5 and 6, the process ends with status 1. *)
Example scenario_one_failing_check :
  exists w,
    expand (term := plain_terminal) (here 1) (CHECK_EQUAL _ _ _ "5" "6" 5 6) initial_world
    = Running w
    /\ pvt.operator_int (unit_test_failures w) = 1
    /\ cout w = "unittest_test.cpp:1:" ++ nl ++ "FAILED: 5 == 6" ++ nl
                  ++ tab ++ "values were '5' and '6'" ++ nl
    /\ exit_status (term := plain_terminal) 0 w = 1.
Proof. eexists. repeat split. Qed.

(** [OIIO_CHECK_EQUAL_APPROX(1.0, 1.0009)] passes and
    [OIIO_CHECK_EQUAL_APPROX(1.0, 1.002)] fails. *)
Example scenario_approx :
  pvt.equal_approx (float_of_Z 1) (float_lit 10009 10000) = true
  /\ pvt.equal_approx (float_of_Z 1) (float_lit 1002 1000) = false.
Proof. split; reflexivity. Qed.

(** An infinity is approximately equal to any finite number: both
    sides of the comparison are infinite. *)
Example equal_approx_infinity :
  pvt.equal_approx (S754_infinity false) (float_of_Z 1) = true.
Proof. reflexivity. Qed.

(** [unit_test_failures += 2;] as a statement ends the process: the
    copy that [operator+=] returns holds a nonzero count when it is
    destroyed. *)
Example add_assign_statement_exits :
  add_assign_statement (term := plain_terminal) 2 initial_world
  = Exited 1 {| cout := "ERRORS!" ++ nl;
                unit_test_failures := {| pvt.m_failures := 2 |} |}.
Proof. reflexivity. Qed.

End Scenarios.

(** * Further properties of the header *)

(** ** Test bodies *)

Section BodyFacts.
Context {term : Terminal}.

Lemma append_empty_inv (s t : string) : s ++ t = "" -> s = "".
Proof. destruct s; [reflexivity | discriminate]. Qed.

Lemma failing_nonneg (cs : list (site * check_call)) : 0 <= failing cs.
Proof. unfold failing. lia. Qed.

Lemma failing_cons (loc : site) (c : check_call) (cs : list (site * check_call)) :
  failing ((loc, c) :: cs)
  = (if predicate c then 0 else 1) + failing cs.
Proof.
  unfold failing. simpl filter. destruct (predicate c); cbn [negb length].
  - reflexivity.
  - rewrite Nat2Z.inj_succ. lia.
Qed.

(** The output of a body is appended to what was there; it is empty
    only when no check fails, and then the world is untouched. *)
Lemma run_checks_appends (cs : list (site * check_call)) (w : world) :
  exists w' out,
    run_checks cs w = Running w'
    /\ cout w' = cout w ++ out
    /\ (failing cs = 0 -> w' = w)
    /\ (out = "" -> failing cs = 0).
Proof.
  revert w. induction cs as [|[loc c] cs IH]; intros w.
  - exists w, "". repeat split; auto. simpl. now rewrite append_empty_r.
  - simpl run_checks. unfold seq. rewrite failing_cons.
    destruct (predicate c) eqn:P.
    + rewrite (expand_true loc c w P).
      destruct (IH w) as (w' & out & E & O & U & N).
      exists w', out. repeat split; auto.
    + destruct (expand_false loc c w P) as (rest & -> & _).
      destruct (IH (count_failure (print (failed_at loc ++ rest) w)))
        as (w' & out & E & O & U & N).
      exists w', ((failed_at loc ++ rest) ++ out). repeat split.
      * exact E.
      * rewrite O. simpl. now rewrite append_assoc.
      * pose proof (failing_nonneg cs). lia.
      * intros Z0. apply append_empty_inv in Z0.
        now apply failed_at_nonempty in Z0.
Qed.

End BodyFacts.

(** X1. A test body run while the counter has room for its failures
    ends with the counter raised by exactly the number of its failing
    checks: every failure is counted, whatever the order and the kind
    of the checks. *)
Theorem test_body_counts_every_failure
    (term : Terminal) (cs : list (site * check_call)) (w : world) :
  in_int (pvt.m_failures (unit_test_failures w)) ->
  pvt.m_failures (unit_test_failures w) + failing cs <= INT_MAX ->
  exists w',
    run_checks cs w = Running w'
    /\ pvt.operator_int (unit_test_failures w')
       = pvt.operator_int (unit_test_failures w) + failing cs.
Proof. apply run_checks_counts_failures. Qed.

Lemma test_body_counts_every_failure_witness :
  exists w',
    run_checks (term := plain_terminal) ten_checks initial_world = Running w'
    /\ pvt.operator_int (unit_test_failures w')
       = pvt.operator_int (unit_test_failures initial_world)
         + failing ten_checks.
Proof.
  apply (test_body_counts_every_failure plain_terminal ten_checks initial_world).
  - unfold in_int, INT_MIN, INT_MAX. simpl. lia.
  - unfold INT_MAX. vm_compute. discriminate.
Defined.

(** X2. A test body only appends to [std::cout]: what was printed
    before stays in front. Nothing is appended exactly when no check
    of the body fails, and then the whole world is as before. *)
Theorem test_body_output_grows
    (term : Terminal) (cs : list (site * check_call)) (w : world) :
  exists w' out,
    run_checks cs w = Running w'
    /\ cout w' = cout w ++ out
    /\ (out = "" <-> failing cs = 0)
    /\ (failing cs = 0 -> w' = w).
Proof.
  destruct (run_checks_appends cs w) as (w' & out & E & O & U & N).
  exists w', out. repeat split; auto.
  intros Z0. specialize (U Z0). subst w'.
  symmetry in O. now apply append_fixed_inv in O.
Qed.

(** X3. A process whose [main] runs a test body with at most
    [INT_MAX] failing checks and returns 0: its exit status is 0
    exactly when no check fails and 1 otherwise; when no check fails
    its whole output is the green [OK] banner. *)
Theorem process_reports_body
    (term : Terminal) (cs : list (site * check_call)) :
  failing cs <= INT_MAX ->
  exists w,
    run_checks cs initial_world = Running w
    /\ (exit_status 0 w = 0 <-> failing cs = 0)
    /\ (failing cs <> 0 -> forall s, exit_status s w = 1)
    /\ (failing cs = 0 -> final_output w = ansi_text "green" ("OK" ++ nl)).
Proof.
  intros B.
  destruct (run_checks_counts_failures cs initial_world) as (w & E & C).
  { unfold in_int, INT_MIN, INT_MAX. simpl. lia. }
  { simpl. exact B. }
  simpl in C. exists w. split; [exact E|].
  assert (S : forall s, exit_status s w = if failing cs =? 0 then s else 1).
  { intros s. rewrite exit_status_by_count, C. reflexivity. }
  repeat split.
  - rewrite S. destruct (Z.eqb_spec (failing cs) 0); [auto | discriminate].
  - intros Z0. rewrite S, Z0. reflexivity.
  - intros NZ s. rewrite S.
    destruct (Z.eqb_spec (failing cs) 0); [contradiction | reflexivity].
  - intros Z0.
    destruct (run_checks_appends cs initial_world) as (w2 & out & E2 & _ & U & _).
    rewrite E in E2. injection E2 as <-. rewrite (U Z0).
    reflexivity.
Qed.

Lemma process_reports_body_witness :
  exists w,
    run_checks (term := plain_terminal) ten_checks initial_world = Running w
    /\ exit_status (term := plain_terminal) 0 w = 1.
Proof.
  destruct (process_reports_body plain_terminal ten_checks)
    as (w & E & _ & N & _).
  - unfold INT_MAX. vm_compute. discriminate.
  - exists w. split; [exact E|]. apply N. vm_compute. discriminate.
Defined.

(** ** The compound addition as a statement *)

(** X4. [unit_test_failures += i;] with a sum within the range of
    [int]: [operator+=] returns the counter by value, and the copy is
    destroyed when the statement ends. With a nonzero sum its
    destructor prints the red [ERRORS!] banner and ends the process
    with status 1; with a zero sum it prints the green [OK] banner and
    the program goes on. The static counter holds the sum either
    way. *)
Theorem add_assign_statement_runs_destructor
    (term : Terminal) (i : Z) (w : world) :
  in_int (pvt.m_failures (unit_test_failures w) + i) ->
  let sum := pvt.m_failures (unit_test_failures w) + i in
  (sum <> 0 ->
   add_assign_statement i w
   = Exited 1 {| cout := cout w ++ ansi_text "red" ("ERRORS!" ++ nl);
                 unit_test_failures := {| pvt.m_failures := sum |} |})
  /\ (sum = 0 ->
      add_assign_statement i w
      = Running {| cout := cout w ++ ansi_text "green" ("OK" ++ nl);
                   unit_test_failures := {| pvt.m_failures := sum |} |}).
Proof.
  intros R sum.
  unfold add_assign_statement, pvt.operator_add_assign, pvt.dtor, print.
  simpl. rewrite (wrap_int_small _ R). fold sum.
  destruct (Z.eqb_spec sum 0) as [Z0|NZ]; simpl; split; intros H;
    try reflexivity; contradiction.
Qed.

Lemma add_assign_statement_runs_destructor_witness :
  add_assign_statement (term := plain_terminal) 2 initial_world
  = Exited 1 {| cout := "" ++ "ERRORS!" ++ nl;
                unit_test_failures := {| pvt.m_failures := 0 + 2 |} |}.
Proof.
  apply (proj1 (add_assign_statement_runs_destructor plain_terminal 2
                  initial_world
                  ltac:(unfold in_int, INT_MIN, INT_MAX; simpl; lia))).
  simpl. discriminate.
Defined.

(** ** [equal_approx] on special values *)

Lemma equal_approx_diag (x : float) :
  is_finite x = true -> pvt.equal_approx x x = true.
Proof.
  intros F. unfold pvt.equal_approx, simd.all, simd.abs, simd.max.
  rewrite (fsub_diag x F), std_max_diag.
  destruct x as [s|s| |s m e]; try discriminate; [reflexivity|].
  unfold fmul, SFmul, f0_001. cbn [SFabs xorb].
  apply round_aux_nonneg. lia.
Qed.

(** [==] on a finite left operand: two zeros, or the same number. *)
Lemma SFeqb_finite_inv (x y : float) :
  SFeqb x y = true -> is_finite x = true ->
  (exists sx sy, x = S754_zero sx /\ y = S754_zero sy) \/ x = y.
Proof.
  unfold SFeqb, SFcompare. intros E F.
  destruct x as [sx|sx| |sx mx ex], y as [sy|sy| |sy my ey];
    try discriminate;
    try (destruct sx; discriminate); try (destruct sy; discriminate).
  - left. now exists sx, sy.
  - right. destruct sx, sy; try discriminate; split_compares.
Qed.

(** X5. An infinity is approximately equal to every value except a
    NaN and the infinity of the same sign: [equal_approx(inf, y)] and
    [equal_approx(y, inf)] hold for every finite [y] and for the
    opposite infinity, and fail for [inf] itself, whose difference
    with itself is a NaN. *)
Theorem equal_approx_infinity_cases (s : bool) (y : float) :
  (pvt.equal_approx (S754_infinity s) y = true
   <-> y <> S754_nan /\ y <> S754_infinity s)
  /\ (pvt.equal_approx y (S754_infinity s) = true
      <-> y <> S754_nan /\ y <> S754_infinity s).
Proof.
  destruct y as [sy|sy| |sy my ey]; destruct s; try destruct sy;
    (split;
     (split;
      [ intros H; try discriminate H; split; discriminate
      | intros [N I]; try reflexivity; congruence ])).
Qed.

(** X6. [equal_approx(x, x)] holds exactly for the finite values of
    [x], zeros and subnormal numbers included; it fails for a NaN and
    for an infinity. *)
Theorem equal_approx_reflexive_iff_finite (x : float) :
  pvt.equal_approx x x = true <-> is_finite x = true.
Proof.
  split.
  - destruct x as [s|s| |s m e]; try reflexivity.
    + now destruct s.
    + discriminate.
  - apply equal_approx_diag.
Qed.

(** ** How the float checks relate *)

Section FloatChecks.
Context {term : Terminal}.
Context (SX SY SD : Streamable float).
Variables (loc : site) (xs ys : string).

Lemma float_equal_passes_iff (x y : float) (w : world) :
  passes loc (CHECK_EQUAL float_eq SX SY xs ys x y) w <-> SFeqb x y = true.
Proof. apply passes_iff_predicate. Qed.

Lemma float_approx_passes_iff (x y : float) (w : world) :
  passes loc (CHECK_EQUAL_APPROX float_equal_approx float_sub SX SY SD
                xs ys x y) w
  <-> pvt.equal_approx x y = true.
Proof. apply passes_iff_predicate. Qed.

Lemma float_thresh_passes_leb (x y eps : float) (w : world) :
  passes loc (CHECK_EQUAL_THRESH float_sub float_std_abs float_le SX SY SD
                xs ys x y eps) w
  <-> SFleb (SFabs (fsub x y)) eps = true.
Proof. apply passes_iff_predicate. Qed.

Lemma simd_thresh_passes_lanes (VX VY : Streamable simd.vfloat4)
    (x y eps : simd.vfloat4) (w : world) :
  passes loc (CHECK_SIMD_EQUAL_THRESH vfloat4_sub vfloat4_abs vfloat4_lt
                vbool4_all VX VY xs ys x y eps) w
  <-> every_lane (fun a b e => SFltb (SFabs (fsub a b)) e = true) x y eps.
Proof.
  rewrite passes_iff_predicate. unfold predicate, all, vbool4_all.
  rewrite vall_lanes. unfold every_lane. simpl. tauto.
Qed.

End FloatChecks.

(** X7. On floats, a passing [OIIO_CHECK_EQUAL] with a finite left
    operand implies a passing [OIIO_CHECK_EQUAL_APPROX] and a passing
    [OIIO_CHECK_EQUAL_THRESH] for every tolerance [eps >= 0]. This
    stops at infinity: [OIIO_CHECK_EQUAL(inf, inf)] passes while the
    approximate and the threshold check on the same operands fail for
    every tolerance. *)
Theorem equal_implies_approx_and_thresh
    (term : Terminal) (SX SY SD : Streamable float)
    (loc : site) (xs ys : string) (w : world) :
  (forall x y : float,
      is_finite x = true ->
      passes loc (CHECK_EQUAL float_eq SX SY xs ys x y) w ->
      passes loc (CHECK_EQUAL_APPROX float_equal_approx float_sub SX SY SD
                    xs ys x y) w
      /\ forall eps, SFleb fzero eps = true ->
           passes loc (CHECK_EQUAL_THRESH float_sub float_std_abs float_le
                         SX SY SD xs ys x y eps) w)
  /\ (forall (s : bool) (eps : float),
      let i := S754_infinity s in
      passes loc (CHECK_EQUAL float_eq SX SY xs ys i i) w
      /\ ~ passes loc (CHECK_EQUAL_APPROX float_equal_approx float_sub SX SY SD
                         xs ys i i) w
      /\ ~ passes loc (CHECK_EQUAL_THRESH float_sub float_std_abs float_le
                         SX SY SD xs ys i i eps) w).
Proof.
  split.
  - intros x y F E. rewrite float_equal_passes_iff in E.
    rewrite float_approx_passes_iff.
    destruct (SFeqb_finite_inv x y E F) as [(sx & sy & -> & ->)| <-].
    + split; [now destruct sx, sy|].
      intros eps P. rewrite float_thresh_passes_leb.
      now destruct sx, sy.
    + split; [now apply equal_approx_diag|].
      intros eps P. rewrite float_thresh_passes_leb.
      now rewrite (fsub_diag x F).
  - intros s eps i.
    rewrite float_equal_passes_iff, float_approx_passes_iff,
      float_thresh_passes_leb.
    unfold i. destruct s; repeat split; discriminate.
Qed.

Lemma equal_implies_approx_and_thresh_witness :
  let x := float_lit 3 2 in
  passes (term := plain_terminal) (here 30)
    (CHECK_EQUAL_APPROX float_equal_approx float_sub
       (fun _ => "x") (fun _ => "y") (fun _ => "d") "x" "y" x x)
    initial_world.
Proof.
  intros x.
  destruct (proj1 (equal_implies_approx_and_thresh plain_terminal
                     (fun _ => "x") (fun _ => "y") (fun _ => "d")
                     (here 30) "x" "y" initial_world) x x)
    as [A _].
  - reflexivity.
  - reflexivity.
  - exact A.
Defined.

(** X8. With a NaN operand every float check but one fails:
    [OIIO_CHECK_EQUAL], [_LT], [_GT], [_LE], [_GE], [_EQUAL_THRESH]
    (whatever the tolerance) and [_EQUAL_APPROX] fail, and
    [OIIO_CHECK_NE] passes, also on two NaNs. *)
Theorem nan_operand_fails_all_but_ne
    (term : Terminal) (SX SY SD : Streamable float)
    (loc : site) (xs ys : string) (x y eps : float) (w : world) :
  x = S754_nan \/ y = S754_nan ->
  ~ passes loc (CHECK_EQUAL float_eq SX SY xs ys x y) w
  /\ ~ passes loc (CHECK_LT float_lt SX SY xs ys x y) w
  /\ ~ passes loc (CHECK_GT float_gt SX SY xs ys x y) w
  /\ ~ passes loc (CHECK_LE float_le SX SY xs ys x y) w
  /\ ~ passes loc (CHECK_GE float_ge SX SY xs ys x y) w
  /\ ~ passes loc (CHECK_EQUAL_THRESH float_sub float_std_abs float_le
                     SX SY SD xs ys x y eps) w
  /\ ~ passes loc (CHECK_EQUAL_APPROX float_equal_approx float_sub SX SY SD
                     xs ys x y) w
  /\ passes loc (CHECK_NE float_ne SX SY xs ys x y) w.
Proof.
  intros N. rewrite !passes_iff_predicate.
  unfold predicate, op_eq, op_lt, op_gt, op_le, op_ge, op_ne, op_sub, std_abs,
    equal_approx, float_eq, float_lt, float_gt, float_le, float_ge, float_ne,
    float_sub, float_std_abs, float_equal_approx, SFeqb, SFltb, SFleb.
  destruct N as [-> | ->].
  - rewrite !SFcompare_nan_r, fsub_nan_l, equal_approx_nan_l.
    repeat split; discriminate.
  - rewrite !SFcompare_nan_r, fsub_nan_r, equal_approx_nan_r.
    assert (C : SFcompare S754_nan x = None) by reflexivity.
    rewrite C. repeat split; discriminate.
Qed.

Lemma nan_operand_fails_all_but_ne_witness :
  ~ passes (term := plain_terminal) (here 31)
      (CHECK_EQUAL float_eq (fun _ => "nan") (fun _ => "nan")
         "x" "x" S754_nan S754_nan)
      initial_world
  /\ passes (term := plain_terminal) (here 31)
       (CHECK_NE float_ne (fun _ => "nan") (fun _ => "nan")
          "x" "x" S754_nan S754_nan)
       initial_world.
Proof.
  destruct (nan_operand_fails_all_but_ne plain_terminal
              (fun _ => "nan") (fun _ => "nan") (fun _ => "nan")
              (here 31) "x" "x" S754_nan S754_nan fzero initial_world
              (or_introl eq_refl))
    as (E & _ & _ & _ & _ & _ & _ & N).
  split; assumption.
Defined.

(** ** Tolerances *)

(** A magnitude is never below a negative number, and never strictly
    below zero. *)
Lemma magnitude_not_leb_negative (d eps : float) :
  magnitude d -> SFltb eps fzero = true -> SFleb d eps = false.
Proof.
  intros M N. destruct eps as [s|s| |s m e]; try discriminate;
    destruct s; try discriminate; now destruct M.
Qed.

Lemma magnitude_not_ltb_nonpositive (d eps : float) :
  magnitude d -> SFleb eps fzero = true -> SFltb d eps = false.
Proof.
  intros M N. destruct eps as [s|s| |s m e]; try discriminate;
    try (destruct s; try discriminate); now destruct M.
Qed.

(** X9. With a negative tolerance ([eps < 0], [-inf] included) the
    threshold check fails for all operands, identical ones included:
    [|x - y|] is never below a negative number. *)
Theorem thresh_negative_eps_never_passes
    (term : Terminal) (SX SY SD : Streamable float)
    (loc : site) (xs ys : string) (x y eps : float) (w : world) :
  SFltb eps fzero = true ->
  ~ passes loc (CHECK_EQUAL_THRESH float_sub float_std_abs float_le
                  SX SY SD xs ys x y eps) w.
Proof.
  intros N. rewrite float_thresh_passes_leb.
  rewrite (magnitude_not_leb_negative _ eps (SFabs_magnitude _) N).
  discriminate.
Qed.

Lemma thresh_negative_eps_never_passes_witness :
  ~ passes (term := plain_terminal) (here 32)
      (CHECK_EQUAL_THRESH float_sub float_std_abs float_le
         (fun _ => "x") (fun _ => "y") (fun _ => "d")
         "x" "x" (float_of_Z 1) (float_of_Z 1) (float_of_Z (-1)))
      initial_world.
Proof.
  apply (thresh_negative_eps_never_passes plain_terminal
           (fun _ => "x") (fun _ => "y") (fun _ => "d") (here 32) "x" "x"
           (float_of_Z 1) (float_of_Z 1) (float_of_Z (-1)) initial_world).
  reflexivity.
Defined.

(** X10. The SIMD threshold check fails for all operands as soon as
    one lane of the tolerance is zero or negative, since its comparison
    is strict; in particular it fails on identical vectors with a zero
    tolerance, where the scalar threshold check on any finite number
    and itself passes. *)
Theorem simd_thresh_zero_eps_never_passes
    (term : Terminal) (VX VY : Streamable simd.vfloat4)
    (SX SY SD : Streamable float)
    (loc : site) (xs ys : string) (w : world) :
  (forall x y eps : simd.vfloat4,
      some_lane (fun _ _ e => SFleb e fzero = true) x y eps ->
      ~ passes loc (CHECK_SIMD_EQUAL_THRESH vfloat4_sub vfloat4_abs vfloat4_lt
                      vbool4_all VX VY xs ys x y eps) w)
  /\ (forall a : float,
      is_finite a = true ->
      passes loc (CHECK_EQUAL_THRESH float_sub float_std_abs float_le
                    SX SY SD xs ys a a fzero) w).
Proof.
  split.
  - intros x y eps Z P. rewrite simd_thresh_passes_lanes in P.
    unfold every_lane, some_lane in *.
    destruct P as (P0 & P1 & P2 & P3).
    destruct Z as [Z|[Z|[Z|Z]]];
      [ rewrite (magnitude_not_ltb_nonpositive _ _ (SFabs_magnitude _) Z) in P0
      | rewrite (magnitude_not_ltb_nonpositive _ _ (SFabs_magnitude _) Z) in P1
      | rewrite (magnitude_not_ltb_nonpositive _ _ (SFabs_magnitude _) Z) in P2
      | rewrite (magnitude_not_ltb_nonpositive _ _ (SFabs_magnitude _) Z) in P3 ];
      discriminate.
  - intros a F. rewrite float_thresh_passes_leb.
    now rewrite (fsub_diag a F).
Qed.

Lemma simd_thresh_zero_eps_never_passes_witness :
  let v := simd.mk4 (float_of_Z 1) (float_of_Z 2) (float_of_Z 3) (float_of_Z 4) in
  let z := simd.mk4 fzero fzero fzero fzero in
  ~ passes (term := plain_terminal) (here 33)
      (CHECK_SIMD_EQUAL_THRESH vfloat4_sub vfloat4_abs vfloat4_lt vbool4_all
         (fun _ => "v") (fun _ => "v") "v" "v" v v z)
      initial_world
  /\ passes (term := plain_terminal) (here 33)
       (CHECK_EQUAL_THRESH float_sub float_std_abs float_le
          (fun _ => "x") (fun _ => "y") (fun _ => "d")
          "v" "v" (float_of_Z 1) (float_of_Z 1) fzero)
       initial_world.
Proof.
  intros v z.
  destruct (simd_thresh_zero_eps_never_passes plain_terminal
              (fun _ => "v") (fun _ => "v")
              (fun _ => "x") (fun _ => "y") (fun _ => "d")
              (here 33) "v" "v" initial_world) as [S T].
  split.
  - apply (S v v z). left. reflexivity.
  - apply (T (float_of_Z 1)). reflexivity.
Defined.

(** X11. The threshold checks do not depend on the order of their
    operands: on floats [OIIO_CHECK_EQUAL_THRESH(x, y, eps)] passes
    exactly when [OIIO_CHECK_EQUAL_THRESH(y, x, eps)] does, and so for
    [OIIO_CHECK_SIMD_EQUAL_THRESH] on vectors. *)
Theorem thresh_checks_symmetric
    (term : Terminal) (SX SY SD : Streamable float)
    (VX VY : Streamable simd.vfloat4)
    (loc : site) (xs ys : string) (w : world) :
  (forall x y eps : float,
      passes loc (CHECK_EQUAL_THRESH float_sub float_std_abs float_le
                    SX SY SD xs ys x y eps) w
      <-> passes loc (CHECK_EQUAL_THRESH float_sub float_std_abs float_le
                        SX SY SD ys xs y x eps) w)
  /\ (forall x y eps : simd.vfloat4,
      passes loc (CHECK_SIMD_EQUAL_THRESH vfloat4_sub vfloat4_abs vfloat4_lt
                    vbool4_all VX VY xs ys x y eps) w
      <-> passes loc (CHECK_SIMD_EQUAL_THRESH vfloat4_sub vfloat4_abs
                        vfloat4_lt vbool4_all VX VY ys xs y x eps) w).
Proof.
  split.
  - intros x y eps. rewrite !float_thresh_passes_leb.
    now rewrite (SFabs_fsub_sym x y).
  - intros x y eps. rewrite !simd_thresh_passes_lanes. unfold every_lane.
    now rewrite (SFabs_fsub_sym (simd.lane0 x)), (SFabs_fsub_sym (simd.lane1 x)),
      (SFabs_fsub_sym (simd.lane2 x)), (SFabs_fsub_sym (simd.lane3 x)).
Qed.

(** X12. A wider tolerance keeps a passing threshold check passing:
    if [OIIO_CHECK_EQUAL_THRESH(x, y, eps)] passes and [eps <= eps'],
    then [OIIO_CHECK_EQUAL_THRESH(x, y, eps')] passes; likewise for
    [OIIO_CHECK_SIMD_EQUAL_THRESH] when [eps <= eps'] in every lane. *)
Theorem thresh_checks_monotone_in_eps
    (term : Terminal) (SX SY SD : Streamable float)
    (VX VY : Streamable simd.vfloat4)
    (loc : site) (xs ys : string) (w : world) :
  (forall x y eps eps' : float,
      SFleb eps eps' = true ->
      passes loc (CHECK_EQUAL_THRESH float_sub float_std_abs float_le
                    SX SY SD xs ys x y eps) w ->
      passes loc (CHECK_EQUAL_THRESH float_sub float_std_abs float_le
                    SX SY SD xs ys x y eps') w)
  /\ (forall x y eps eps' : simd.vfloat4,
      every_lane (fun _ e e' => SFleb e e' = true) x eps eps' ->
      passes loc (CHECK_SIMD_EQUAL_THRESH vfloat4_sub vfloat4_abs vfloat4_lt
                    vbool4_all VX VY xs ys x y eps) w ->
      passes loc (CHECK_SIMD_EQUAL_THRESH vfloat4_sub vfloat4_abs vfloat4_lt
                    vbool4_all VX VY xs ys x y eps') w).
Proof.
  split.
  - intros x y eps eps' L. rewrite !float_thresh_passes_leb.
    intros P. exact (SFleb_trans _ _ _ P L).
  - intros x y eps eps' L. rewrite !simd_thresh_passes_lanes.
    unfold every_lane in *.
    destruct L as (L0 & L1 & L2 & L3). intros (P0 & P1 & P2 & P3).
    repeat split; eapply SFltb_leb_trans; eassumption.
Qed.

Lemma thresh_checks_monotone_in_eps_witness :
  passes (term := plain_terminal) (here 34)
    (CHECK_EQUAL_THRESH float_sub float_std_abs float_le
       (fun _ => "x") (fun _ => "y") (fun _ => "d")
       "x" "y" (float_lit 3 2) (float_of_Z 1) (float_of_Z 2))
    initial_world.
Proof.
  apply (proj1 (thresh_checks_monotone_in_eps plain_terminal
                  (fun _ => "x") (fun _ => "y") (fun _ => "d")
                  (fun _ => "v") (fun _ => "v")
                  (here 34) "x" "y" initial_world)
           (float_lit 3 2) (float_of_Z 1) (float_lit 1 2) (float_of_Z 2)).
  - reflexivity.
  - reflexivity.
Defined.

(** ** [simd::max] *)

Lemma SFcompare_defined (x y : float) :
  x <> S754_nan -> y <> S754_nan -> SFcompare x y <> None.
Proof.
  intros Nx Ny.
  destruct x as [sx|sx| |sx mx ex], y as [sy|sy| |sy my ey];
    try congruence; simpl; discriminate.
Qed.

(** X13. [simd::max(x, y)] returns one of its arguments. When neither
    is a NaN it is an upper bound of both; when either is a NaN it is
    the first argument, so that [max(NaN, y)] is a NaN and [max(x, NaN)]
    is [x]. *)
Theorem simd_max_bound_and_nan (x y : float) :
  (simd.max x y = x \/ simd.max x y = y)
  /\ (x = S754_nan \/ y = S754_nan -> simd.max x y = x)
  /\ (x <> S754_nan -> y <> S754_nan ->
      SFleb x (simd.max x y) = true /\ SFleb y (simd.max x y) = true).
Proof.
  unfold simd.max, std_max. split; [|split].
  - destruct (SFltb x y); auto.
  - intros [-> | ->]; [reflexivity|].
    unfold SFltb. now rewrite SFcompare_nan_r.
  - intros Nx Ny.
    pose proof (SFcompare_defined x y Nx Ny) as D.
    pose proof (SFcompare_antisym x y) as A.
    pose proof (SFcompare_refl x Nx) as Rx.
    pose proof (SFcompare_refl y Ny) as Ry.
    unfold SFleb, SFltb.
    destruct (SFcompare x y) as [[ | | ]|] eqn:C; try congruence;
      rewrite ?A, ?C, ?Rx, ?Ry; simpl; auto.
Qed.

Lemma simd_max_bound_and_nan_witness :
  simd.max (float_of_Z 1) S754_nan = float_of_Z 1
  /\ SFleb (float_of_Z 2) (simd.max (float_of_Z 1) (float_of_Z 2)) = true.
Proof.
  split.
  - apply (proj1 (proj2 (simd_max_bound_and_nan (float_of_Z 1) S754_nan))).
    right. reflexivity.
  - apply (proj2 (proj2 (simd_max_bound_and_nan (float_of_Z 1) (float_of_Z 2))));
      discriminate.
Defined.

(** ** [OIIO_CHECK_SIMD_EQUAL] *)

Lemma SFeqb_diag (a : float) : SFeqb a a = true <-> a <> S754_nan.
Proof.
  unfold SFeqb. split.
  - intros E ->. discriminate.
  - intros N. now rewrite (SFcompare_refl a N).
Qed.

(** X14. [OIIO_CHECK_SIMD_EQUAL(x, x)] on a vector of floats passes
    exactly when no lane of [x] is a NaN: a single NaN lane makes a
    vector differ from itself. *)
Theorem simd_equal_reflexive_iff_no_nan
    (term : Terminal) (VX VY : Streamable simd.vfloat4)
    (loc : site) (xs ys : string) (x : simd.vfloat4) (w : world) :
  passes loc (CHECK_SIMD_EQUAL vfloat4_eq vbool4_all VX VY xs ys x x) w
  <-> every_lane (fun a _ _ => a <> S754_nan) x x x.
Proof.
  rewrite passes_iff_predicate. unfold predicate, all, vbool4_all.
  rewrite vall_lanes. unfold every_lane. simpl.
  now rewrite !SFeqb_diag.
Qed.
